(** * neon-risk-insight: the [predict-risk] edge function

    A shallow embedding of the Deno edge function that validates a prediction
    request, scores the applicant with a threshold heuristic and assigns a
    risk bucket, together with the properties its specification states.

    JavaScript numbers are IEEE-754 binary64 values: they are modelled by
    Rocq's primitive [float], whose operations are specified by [SpecFloat].
    The calls to [console.log] and [console.error] are left out: nothing the
    functions return depends on them. *)

From Stdlib Require Import Floats ZArith Lia List String Bool.
Import ListNotations.

Set Warnings "-inexact-float,-register-all".

Local Open Scope float_scope.

(** ** JavaScript numbers *)

Module JS.

Definition number := float.

Definition isNaN (x : number) : bool := is_nan x.

Definition is_neg_zero (x : number) : bool :=
  match classify x with NZero => true | _ => false end.

(** [Math.max] and [Math.min] of two numbers: NaN if either argument is NaN,
    and [+0] counts as larger than [-0]. *)
Definition Math_max (x y : number) : number :=
  if isNaN x || isNaN y then nan
  else if x <? y then y
  else if y <? x then x
  else if is_neg_zero x then y else x.

Definition Math_min (x y : number) : number :=
  if isNaN x || isNaN y then nan
  else if x <? y then x
  else if y <? x then y
  else if is_neg_zero x then x else y.

End JS.

(** The relational operators [<] and [<=] on numbers are the comparisons
    [<?] and [<=?] of binary64 values, and [x > y] is [y < x]; every
    comparison with NaN is [false]. *)
Notation "x >? y" := (y <? x) (at level 70, no associativity, only parsing) : float_scope.
Notation "x >=? y" := (y <=? x) (at level 70, no associativity, only parsing) : float_scope.

(** ** Data model *)

(** [interface ApplicantData] *)
Record ApplicantData := mkApplicantData {
  annual_income : JS.number;
  credit_amount : JS.number;
  annuity : JS.number;
  age : JS.number;
  employment_years : JS.number;
  gender : string;
  contract_type : string;
  education : string
}.

(** [meta.cutoffs], read from [artifacts_meta.json]; the file is not part of
    the repository sources, so the cutoffs are a parameter of the scorer. *)
Module cutoffs.
Record t := mk { A : JS.number; B : JS.number; C : JS.number }.
End cutoffs.

(** The value [predictRisk] returns. *)
Record Prediction := mkPrediction {
  probability : JS.number;
  bucket : string
}.

(** ** The risk scorer: [predictRisk] *)

Section Scorer.

Variable data : ApplicantData.

(** Derived features. *)
Definition creditToIncome : JS.number := credit_amount data / annual_income data.
Definition annuityToIncome : JS.number := annuity data / annual_income data.
Definition debtToIncome : JS.number := (annuity data * 12) / annual_income data.

(** The accumulator [riskScore] after the six rule groups; each [let]
    rebinds it the way the source updates the variable. *)
Definition riskScore : JS.number :=
  let riskScore := 0 in
  (* Credit to income ratio impact *)
  let riskScore :=
    if creditToIncome >? 3 then riskScore + 0.08
    else if creditToIncome >? 2 then riskScore + 0.05
    else if creditToIncome >? 1 then riskScore + 0.03
    else riskScore in
  (* Debt to income ratio impact *)
  let riskScore :=
    if debtToIncome >? 0.5 then riskScore + 0.06
    else if debtToIncome >? 0.3 then riskScore + 0.03
    else riskScore in
  (* Age impact *)
  let riskScore :=
    if age data <? 25 then riskScore + 0.04
    else if age data >? 60 then riskScore + 0.02
    else riskScore in
  (* Employment years impact *)
  let riskScore :=
    if employment_years data <? 1 then riskScore + 0.05
    else if employment_years data <? 3 then riskScore + 0.03
    else if employment_years data >? 10 then riskScore - 0.02
    else riskScore in
  (* Contract type impact *)
  let riskScore :=
    if (contract_type data =? "Revolving loans")%string then riskScore + 0.02
    else riskScore in
  (* Education impact *)
  let riskScore :=
    if (education data =? "Academic degree")%string
       || (education data =? "Higher education")%string
    then riskScore - 0.02
    else if (education data =? "Lower secondary")%string then riskScore + 0.02
    else riskScore in
  riskScore.

(** [Math.max(0, Math.min(0.4, riskScore))] *)
Definition baseProbability : JS.number :=
  JS.Math_max 0 (JS.Math_min 0.4 riskScore).

(** The record logged under [features]; nothing else reads
    [annuityToIncome]. *)
Definition features : JS.number * JS.number * JS.number :=
  (creditToIncome, annuityToIncome, debtToIncome).

End Scorer.

(** The perturbation [Math.random() * 0.02 - 0.01], as a function of the value
    [Math.random()] returned. *)
Definition perturbation (random : JS.number) : JS.number := random * 0.02 - 0.01.

(** Bucket assignment from the cutoffs. *)
Definition assignBucket (cutoffs : cutoffs.t) (probability : JS.number) : string :=
  let bucket := "D"%string in
  if probability <=? cutoffs.A cutoffs then "A"%string
  else if probability <=? cutoffs.B cutoffs then "B"%string
  else if probability <=? cutoffs.C cutoffs then "C"%string
  else bucket.

(** [predictRisk] with the perturbation term given: the clamp comes first, the
    perturbation is added to the clamped value, and the bucket is assigned
    from the perturbed probability. *)
Definition predictRiskWith (cutoffs : cutoffs.t) (e : JS.number)
    (data : ApplicantData) : Prediction :=
  let probability := baseProbability data + e in
  {| probability := probability; bucket := assignBucket cutoffs probability |}.

(** [predictRisk]; [random] is the value the call to [Math.random()] yields. *)
Definition predictRisk (cutoffs : cutoffs.t) (random : JS.number)
    (data : ApplicantData) : Prediction :=
  predictRiskWith cutoffs (perturbation random) data.

(** ** JSON values *)

Inductive JSON :=
| JNull
| JBool (b : bool)
| JNumber (x : JS.number)
| JString (s : string)
| JArray (items : list JSON)
| JObject (members : list (string * JSON)).

(** The value of member [key] of a parsed object; [None] is [undefined].
    [JSON.parse] keeps the last of several members with the same key. *)
Fixpoint member (key : string) (members : list (string * JSON)) : option JSON :=
  match members with
  | [] => None
  | (k, v) :: rest =>
      match member key rest with
      | Some later => Some later
      | None => if (key =? k)%string then Some v else None
      end
  end.

Definition has_key (key : string) (members : list (string * JSON)) : bool :=
  existsb (String.eqb key) (map fst members).

(** Truthiness of a value ([undefined] is [None]). *)
Definition truthy (v : option JSON) : bool :=
  match v with
  | None | Some JNull => false
  | Some (JBool b) => b
  | Some (JNumber x) => negb ((x =? 0) || JS.isNaN x)
  | Some (JString s) => negb (s =? "")%string
  | Some (JArray _) | Some (JObject _) => true
  end.

(** ** Exceptions *)

(** Errors the runtime itself raises; their message texts belong to the
    engine. *)
Inductive fault :=
| BodyNotJSON            (* [req.json()] rejects *)
| ReadPropertyOfNull     (* [null.data] *)
| InOperatorOnPrimitive  (* [field in data] with [data] not an object *)
| ConvertToPrimitive.    (* an object with no callable [toString] or [valueOf] used as a number *)

Inductive exn :=
| Error (message : string)   (* [throw new Error(message)] *)
| RuntimeError (f : fault).  (* a TypeError or SyntaxError of the runtime *)

Definition M (A : Type) : Type := exn + A.
Definition ret {A} (a : A) : M A := inr a.
Definition throw {A} (e : exn) : M A := inl e.
Definition bind {A B} (m : M A) (k : A -> M B) : M B :=
  match m with inl e => inl e | inr a => k a end.

Notation "x <- m ;; k" := (bind m (fun x => k))
  (at level 61, m at next level, right associativity).

(** [value.key] for a key that no prototype defines: reading a property of
    [null] throws, a primitive or an array has no such property. *)
Definition get_property (value : JSON) (key : string) : M (option JSON) :=
  match value with
  | JNull => throw (RuntimeError ReadPropertyOfNull)
  | JObject members => ret (member key members)
  | _ => ret None
  end.

(** [field in data] for the field names the handler asks about (none of them
    is an inherited property, an array index or ["length"]). *)
Definition in_operator (field : string) (data : JSON) : M bool :=
  match data with
  | JObject members => ret (has_key field members)
  | JArray _ => ret false
  | _ => throw (RuntimeError InOperatorOnPrimitive)
  end.

(** Whether the conversion of a value to a primitive throws.  A parsed
    object has no callable member, so its own [toString] member hides the
    inherited method and leaves no method that returns a primitive (the
    inherited [valueOf] returns the object itself); without such a member
    the inherited [toString] answers.  An array is joined from the strings
    of its elements other than [null], so it throws where one of them
    does. *)
Fixpoint unconvertible (v : JSON) : bool :=
  match v with
  | JObject members => has_key "toString" members
  | JArray items => existsb unconvertible items
  | _ => false
  end.

(** ** The request handler *)

Definition corsHeaders : list (string * string) :=
  [ ("Access-Control-Allow-Origin", "*");
    ("Access-Control-Allow-Headers",
     "authorization, x-client-info, apikey, content-type") ]%string.

Definition requiredFields : list string :=
  [ "annual_income"; "credit_amount"; "annuity"; "age"; "employment_years";
    "gender"; "contract_type"; "education" ]%string.

(** A request: its method and what [req.json()] resolves to ([None] when it
    rejects). *)
Record Request := mkRequest {
  method : string;
  json : option JSON
}.

Inductive ResponseBody :=
| NoBody                                   (* [new Response(null, ...)] *)
| PredictionBody (result : Prediction)     (* [JSON.stringify(result)] *)
| ErrorBody (error : string) (details : string).

Record Response := mkResponse {
  status : Z;
  headers : list (string * string);
  body : ResponseBody
}.

(** The loop over [requiredFields]: the first absent field is reported. *)
Fixpoint check_required (data : JSON) (fields : list string) : M unit :=
  match fields with
  | [] => ret tt
  | field :: rest =>
      present <- in_operator field data ;;
      if negb present
      then throw (Error ("Missing required field: " ++ field))
      else check_required data rest
  end.

(** The validation part of the [try] block: it yields [body.data].  An
    [undefined] value is falsy, so the last branch is never taken. *)
Definition validate (body : JSON) : M JSON :=
  data <- get_property body "data" ;;
  if negb (truthy data)
  then throw (Error "Missing data field in request")
  else
    match data with
    | Some data => _ <- check_required data requiredFields ;; ret data
    | None => throw (Error "Missing data field in request")
    end.

Section Handler.

(** [meta.cutoffs] and the value [Math.random()] returns in this call. *)
Variable cutoffs : cutoffs.t.
Variable random : JS.number.

(** Parts of the runtime: the message of each error it raises, the
    conversion of a string to a number, and the string an array or an
    object converts to when its conversion does not throw. *)
Variable runtime_message : fault -> string.
Variable StringToNumber : string -> JS.number.
Variable ObjectToString : JSON -> string.

(** [ToNumber]: the conversion every arithmetic operator and every
    comparison with a number applies to its operand.  An object or an array
    is first converted to a primitive, which throws for an [unconvertible]
    one. *)
Definition ToNumber (v : option JSON) : M JS.number :=
  match v with
  | None => ret nan
  | Some JNull => ret 0
  | Some (JBool b) => ret (if b then 1 else 0)
  | Some (JNumber x) => ret x
  | Some (JString s) => ret (StringToNumber s)
  | Some (JArray items) =>
      if unconvertible (JArray items)
      then throw (RuntimeError ConvertToPrimitive)
      else ret (StringToNumber (ObjectToString (JArray items)))
  | Some (JObject members) =>
      if unconvertible (JObject members)
      then throw (RuntimeError ConvertToPrimitive)
      else ret (StringToNumber (ObjectToString (JObject members)))
  end.

(** A string field is only ever compared with [===] against a non-empty
    literal, which no other kind of value equals. *)
Definition as_string (v : option JSON) : string :=
  match v with
  | Some (JString s) => s
  | _ => ""%string
  end.

Definition field (data : JSON) (key : string) : option JSON :=
  match data with
  | JObject members => member key members
  | _ => None
  end.

(** The record [predictRisk] reads out of the unchecked payload: the
    declared type [PredictionRequest] is erased at run time, and the five
    numeric fields are converted where [predictRisk] first computes with
    them: [credit / income], [annuity / income], [age < 25] and
    [employment < 1].  A conversion that throws ends the call. *)
Definition as_applicant (data : JSON) : M ApplicantData :=
  credit <- ToNumber (field data "credit_amount") ;;
  income <- ToNumber (field data "annual_income") ;;
  annuity <- ToNumber (field data "annuity") ;;
  age <- ToNumber (field data "age") ;;
  employment <- ToNumber (field data "employment_years") ;;
  ret {| annual_income := income;
         credit_amount := credit;
         annuity := annuity;
         age := age;
         employment_years := employment;
         gender := as_string (field data "gender");
         contract_type := as_string (field data "contract_type");
         education := as_string (field data "education") |}.

(** The [try] block. *)
Definition process (req : Request) : M Prediction :=
  body <- match json req with
          | Some body => ret body
          | None => throw (RuntimeError BodyNotJSON)
          end ;;
  data <- validate body ;;
  applicant <- as_applicant data ;;
  ret (predictRisk cutoffs random applicant).

(** [error instanceof Error ? error.message : 'Unknown error']: every
    exception of [process] is an instance of [Error]. *)
Definition message_of (error : exn) : string :=
  match error with
  | Error message => message
  | RuntimeError f => runtime_message f
  end.

Definition handler (req : Request) : Response :=
  if (method req =? "OPTIONS")%string
  then {| status := 200; headers := corsHeaders; body := NoBody |}
  else
    match process req with
    | inr result =>
        {| status := 200;
           headers := (corsHeaders ++ [("Content-Type", "application/json")%string])%list;
           body := PredictionBody result |}
    | inl error =>
        {| status := 500;
           headers := (corsHeaders ++ [("Content-Type", "application/json")%string])%list;
           body := ErrorBody (message_of error)
                             "Failed to process prediction request" |}
    end.

End Handler.

(** The five fields [predictRisk] computes with, and whether each of them
    holds a value whose conversion to a number does not throw. *)
Definition numericFields : list string :=
  [ "credit_amount"; "annual_income"; "annuity"; "age"; "employment_years" ]%string.

Definition converts (v : option JSON) : bool :=
  match v with
  | Some value => negb (unconvertible value)
  | None => true
  end.

Definition convertible (members : list (string * JSON)) : bool :=
  forallb (fun key => converts (member key members)) numericFields.

(** The payload a well-typed applicant record is sent as. *)
Definition payload (d : ApplicantData) : JSON :=
  JObject
    [ ("annual_income", JNumber (annual_income d));
      ("credit_amount", JNumber (credit_amount d));
      ("annuity", JNumber (annuity d));
      ("age", JNumber (age d));
      ("employment_years", JNumber (employment_years d));
      ("gender", JString (gender d));
      ("contract_type", JString (contract_type d));
      ("education", JString (education d)) ]%string.

(** * The statements of the specification *)

(** ** The scoring table of the specification (section 4.2)

    A second description of the raw score, written from the table: thirteen
    rows in four threshold groups and two label groups, each row a condition
    and an adjustment; the score of the table is the sum, from [0], of the
    adjustments of the rows whose condition holds.  The labels of the two
    label groups are those of the external interface (section 6). *)

Module Table.

Record rule := mk {
  applies : ApplicantData -> bool;
  adjustment : JS.number
}.

(** The derived quantities, by the formulas of the specification:
    credit-to-income = credit / income and
    debt-to-income = (annuity x 12) / income. *)
Definition credit_to_income (d : ApplicantData) : JS.number :=
  credit_amount d / annual_income d.

Definition debt_to_income (d : ApplicantData) : JS.number :=
  (annuity d * 12) / annual_income d.

Definition credit_rules : list rule :=
  [ mk (fun d => credit_to_income d >? 3) 0.08;
    mk (fun d => (credit_to_income d >? 2) && (credit_to_income d <=? 3)) 0.05;
    mk (fun d => (credit_to_income d >? 1) && (credit_to_income d <=? 2)) 0.03 ].

Definition debt_rules : list rule :=
  [ mk (fun d => debt_to_income d >? 0.5) 0.06;
    mk (fun d => (debt_to_income d >? 0.3) && (debt_to_income d <=? 0.5)) 0.03 ].

Definition age_rules : list rule :=
  [ mk (fun d => age d <? 25) 0.04;
    mk (fun d => age d >? 60) 0.02 ].

Definition employment_rules : list rule :=
  [ mk (fun d => employment_years d <? 1) 0.05;
    mk (fun d => (employment_years d <? 3) && (employment_years d >=? 1)) 0.03;
    mk (fun d => employment_years d >? 10) (-0.02) ].

Definition contract_rules : list rule :=
  [ mk (fun d => (contract_type d =? "Revolving loans")%string) 0.02 ].

Definition education_rules : list rule :=
  [ mk (fun d => existsb (String.eqb (education d))
                   ["Academic degree"; "Higher education"]%string) (-0.02);
    mk (fun d => (education d =? "Lower secondary")%string) 0.02 ].

(** The four groups whose rows are thresholds on one quantity. *)
Definition threshold_groups : list (list rule) :=
  [credit_rules; debt_rules; age_rules; employment_rules].

Definition rows : list rule :=
  List.concat (threshold_groups ++ [contract_rules; education_rules])%list.

Definition applicable (d : ApplicantData) (rs : list rule) : list rule :=
  filter (fun r => applies r d) rs.

Definition sum (xs : list JS.number) : JS.number :=
  fold_left PrimFloat.add xs 0.

Definition score (d : ApplicantData) : JS.number :=
  sum (map adjustment (applicable d rows)).

End Table.

(** ** Buckets *)

(** The risk order of the buckets, A safest. *)
Definition risk_rank (bucket : string) : nat :=
  if (bucket =? "A")%string then 0
  else if (bucket =? "B")%string then 1
  else if (bucket =? "C")%string then 2
  else 3.

(** The classifier as the contract words it: the first of A, B, C whose
    cutoff is at least the probability, else D. *)
Definition first_bucket (cut : cutoffs.t) (p : JS.number) : string :=
  match find (fun bc => snd bc >=? p)
          [("A"%string, cutoffs.A cut); ("B"%string, cutoffs.B cut);
           ("C"%string, cutoffs.C cut)] with
  | Some (name, _) => name
  | None => "D"%string
  end.

(** The intervals of the claim, for every cutoff triple. *)
Definition intervals_as_specified (cut : cutoffs.t) (p : JS.number) : Prop :=
  (assignBucket cut p = "A"%string <-> (p <=? cutoffs.A cut) = true)
  /\ (assignBucket cut p = "B"%string <->
      (cutoffs.A cut <? p) = true /\ (p <=? cutoffs.B cut) = true)
  /\ (assignBucket cut p = "C"%string <->
      (cutoffs.B cut <? p) = true /\ (p <=? cutoffs.C cut) = true)
  /\ (assignBucket cut p = "D"%string <->
      (p <=? cutoffs.A cut) = false
      /\ ((cutoffs.A cut <? p) = true /\ (p <=? cutoffs.B cut) = true -> False)
      /\ ((cutoffs.B cut <? p) = true /\ (p <=? cutoffs.C cut) = true -> False)).

(** ** The scenario, the inert input and the zero income *)

(** The scenario as the specification words it: a debt-to-income ratio of
    about 0.221 that selects no row, and a raw and a clamped score of
    0.06. *)
Definition scenario_as_specified (d : ApplicantData) : Prop :=
  (0.2205 <=? debtToIncome d) = true
  /\ (debtToIncome d <=? 0.2215) = true
  /\ Table.applicable d Table.debt_rules = []
  /\ riskScore d = 0.06
  /\ baseProbability d = 0.06.

(** Two records that differ at most in [gender]. *)
Definition same_but_gender (d1 d2 : ApplicantData) : Prop :=
  annual_income d1 = annual_income d2
  /\ credit_amount d1 = credit_amount d2
  /\ annuity d1 = annuity d2
  /\ age d1 = age d2
  /\ employment_years d1 = employment_years d2
  /\ contract_type d1 = contract_type d2
  /\ education d1 = education d2.

(** The behaviour claimed for a zero income: the comparisons of the ratios
    with the thresholds all fail, and the returned probability is NaN. *)
Definition zero_income_as_specified (cut : cutoffs.t) (e : JS.number)
    (d : ApplicantData) : Prop :=
  (creditToIncome d >? 3) = false /\ (creditToIncome d >? 2) = false
  /\ (creditToIncome d >? 1) = false
  /\ (debtToIncome d >? 0.5) = false /\ (debtToIncome d >? 0.3) = false
  /\ JS.isNaN (probability (predictRiskWith cut e d)) = true.

(** ** Responses *)

Definition json_headers : list (string * string) :=
  (corsHeaders ++ [("Content-Type", "application/json")%string])%list.

Definition failure (message : string) : Response :=
  {| status := 500; headers := json_headers;
     body := ErrorBody message "Failed to process prediction request" |}.

Definition success (result : Prediction) : Response :=
  {| status := 200; headers := json_headers; body := PredictionBody result |}.

(** The outcomes the claim allows: a 200 response carrying a probability
    and a bucket, or a 500 response carrying an error message. *)
Definition succeeds_or_fails (r : Response) : Prop :=
  (exists result, r = success result) \/ (exists message, r = failure message).

(** ** Sample inputs *)

Definition median_applicant : ApplicantData :=
  {| annual_income := 147150; credit_amount := 599025; annuity := 27108;
     age := 35; employment_years := 5; gender := "F";
     contract_type := "Cash loans"; education := "Higher education" |}.

Definition median_applicant_male : ApplicantData :=
  {| annual_income := 147150; credit_amount := 599025; annuity := 27108;
     age := 35; employment_years := 5; gender := "M";
     contract_type := "Cash loans"; education := "Higher education" |}.

Definition ratio_three_applicant : ApplicantData :=
  {| annual_income := 100000; credit_amount := 300000; annuity := 2000;
     age := 40; employment_years := 5; gender := "M";
     contract_type := "Cash loans";
     education := "Secondary / secondary special" |}.

Definition low_risk_applicant : ApplicantData :=
  {| annual_income := 100000; credit_amount := 50000; annuity := 2000;
     age := 40; employment_years := 12; gender := "M";
     contract_type := "Cash loans"; education := "Higher education" |}.

(** The stacking scenario of the specification: a young applicant without
    employment history, a revolving loan and lower secondary education. *)
Definition stacking_applicant : ApplicantData :=
  {| annual_income := 100000; credit_amount := 50000; annuity := 2000;
     age := 20; employment_years := 0; gender := "M";
     contract_type := "Revolving loans"; education := "Lower secondary" |}.

Definition zero_income_applicant : ApplicantData :=
  {| annual_income := 0; credit_amount := 50000; annuity := 2000;
     age := 40; employment_years := 5; gender := "F";
     contract_type := "Cash loans";
     education := "Secondary / secondary special" |}.

(** The same record with an income of [-0], as the JSON text [-0] gives. *)
Definition negative_zero_income_applicant : ApplicantData :=
  {| annual_income := -0; credit_amount := 50000; annuity := 2000;
     age := 40; employment_years := 5; gender := "F";
     contract_type := "Cash loans";
     education := "Secondary / secondary special" |}.

Definition sample_cutoffs : cutoffs.t :=
  {| cutoffs.A := 0.05; cutoffs.B := 0.1; cutoffs.C := 0.2 |}.

(** Cutoffs that are not in increasing order. *)
Definition unordered_cutoffs : cutoffs.t :=
  {| cutoffs.A := 0.5; cutoffs.B := 0.2; cutoffs.C := 0.6 |}.

(** A runtime for the sample requests: its parts are never reached by them. *)
Definition no_runtime_message (f : fault) : string := ""%string.
Definition no_number (s : string) : JS.number := nan.
Definition no_string (v : JSON) : string := ""%string.

Definition serve : Request -> Response :=
  handler sample_cutoffs 0.5 no_runtime_message no_number no_string.

Definition preflight : Request := {| method := "OPTIONS"; json := None |}.

Definition post_without_data : Request :=
  {| method := "POST"; json := Some (JObject [("payload"%string, JNull)]) |}.

(** Data objects without the key [age] and without the key
    [annual_income], and one with all eight keys whose values are all
    [null]. *)
Definition members_without_age : list (string * JSON) :=
  [ ("annual_income", JNumber 100000); ("credit_amount", JNumber 50000);
    ("annuity", JNumber 2000); ("employment_years", JNumber 5);
    ("gender", JString "F"); ("contract_type", JString "Cash loans");
    ("education", JString "Higher education") ]%string.

Definition members_without_income : list (string * JSON) :=
  [ ("credit_amount", JNumber 50000); ("annuity", JNumber 2000);
    ("age", JNumber 40); ("employment_years", JNumber 5);
    ("gender", JString "F"); ("contract_type", JString "Cash loans");
    ("education", JString "Higher education") ]%string.

Definition members_all_null : list (string * JSON) :=
  map (fun key => (key, JNull)) requiredFields.

(** All eight keys, the income an object whose own [toString] and
    [valueOf] members are numbers. *)
Definition members_unconvertible : list (string * JSON) :=
  ("annual_income"%string,
   JObject [("toString"%string, JNumber 0); ("valueOf"%string, JNumber 0)])
  :: members_without_income.

(** The record read out of [members_all_null]: [null] converts to [0], and
    is no string. *)
Definition null_applicant : ApplicantData :=
  {| annual_income := 0; credit_amount := 0; annuity := 0; age := 0;
     employment_years := 0; gender := ""; contract_type := "";
     education := "" |}.

(** * Auxiliary definitions on binary64 values *)

Module Binary64.

Local Open Scope Z_scope.

(** Comparisons that are not [Gt], and the comparison two of them compose to. *)
Definition weak (c : comparison) : bool :=
  match c with Gt => false | _ => true end.

Definition join (c1 c2 : comparison) : comparison :=
  match c1, c2 with Eq, Eq => Eq | _, _ => Lt end.

Definition cmp (x y : float) : option comparison :=
  SFcompare (Prim2SF x) (Prim2SF y).

Abbreviation digits m := (Zpos (digits2_pos m)).
Abbreviation fexp := (SpecFloat.fexp prec emax).

(** The exponent a mantissa [m] at exponent [e] is shifted to. *)
Definition shifted (m e : Z) : Z := Z.max e (fexp (Zdigits2 m + e)).

(** What [binary_round_aux] returns for a final mantissa and exponent. *)
Definition finish (s : bool) (m e : Z) : spec_float :=
  match m with
  | Z0 => S754_zero s
  | Zpos p => if e <=? emax - prec then S754_finite s p e else S754_infinity s
  | Zneg _ => S754_nan
  end.

(** A finite binary64 value [m * 2^e] has [e >= -1074]; [V m e] is the
    value in units of [2^-1074]. *)
Definition V (m e : Z) : Z := m * 2 ^ (e + 1074).

Arguments V : simpl never.

(** The mantissas of the binary64 values of 0.009, 0.28, 0.01, 0.41 (at
    exponents -59, -54, -59, -54) and 12 (at exponent -49). *)
Definition m_009 : positive := 5188146770730811.
Definition m_28 : positive := 5044031582654956.
Definition m_01 : positive := 5764607523034235.
Definition m_41 : positive := 7385903388887613.
Definition m_12 : positive := 6755399441055744.

(** Between -0.01 and 0.41. *)
Definition in_range (R : spec_float) : Prop :=
  SFleb (S754_finite true m_01 (-59)) R = true
  /\ SFleb R (S754_finite false m_41 (-54)) = true.

End Binary64.

(** * Further inputs of the scorer and the handler *)

(** A spec float that is not above zero: a zero, a negative number or
    NaN. *)
Definition not_positive (R : spec_float) : Prop :=
  match R with
  | S754_zero _ | S754_nan | S754_finite true _ _ | S754_infinity true => True
  | _ => False
  end.

(** The record with the same age, employment and labels and no debt at
    all. *)
Definition without_debt (d : ApplicantData) : ApplicantData :=
  {| annual_income := 1; credit_amount := 0; annuity := 0;
     age := age d; employment_years := employment_years d; gender := gender d;
     contract_type := contract_type d; education := education d |}.

(** A record on which every rule group adds its largest adjustment. *)
Definition highest_score_applicant : ApplicantData :=
  {| annual_income := 100000; credit_amount := 400000; annuity := 5000;
     age := 20; employment_years := 0; gender := "M";
     contract_type := "Revolving loans"; education := "Lower secondary" |}.

Definition negative_income_applicant : ApplicantData :=
  {| annual_income := -50000; credit_amount := 200000; annuity := 30000;
     age := 40; employment_years := 5; gender := "F";
     contract_type := "Cash loans";
     education := "Secondary / secondary special" |}.

(** [ratio_three_applicant] with an education label the scorer does not
    name. *)
Definition incomplete_higher_applicant : ApplicantData :=
  {| annual_income := 100000; credit_amount := 300000; annuity := 2000;
     age := 40; employment_years := 5; gender := "M";
     contract_type := "Cash loans"; education := "Incomplete higher" |}.

(** The body of the page's call as [req.json()] yields it at the handler,
    when the transport writes the object as JSON; [serialise] is what a
    number arrives as. *)
Definition wire (serialise : JS.number -> JSON) (d : ApplicantData) : JSON :=
  JObject
    [ ("data"%string,
       JObject
         [ ("annual_income", serialise (annual_income d));
           ("credit_amount", serialise (credit_amount d));
           ("annuity", serialise (annuity d));
           ("age", serialise (age d));
           ("employment_years", serialise (employment_years d));
           ("gender", JString (gender d));
           ("contract_type", JString (contract_type d));
           ("education", JString (education d)) ]%string) ].

(** * The prediction page: [Predict] *)

Module Predict.

Local Open Scope string_scope.

(** The form state: the eight fields the component declares, and the
    properties a call of [handleInputChange] with any other name adds, in
    the order of their creation. *)
Record FormData := mkFormData {
  income : string;
  creditAmount : string;
  annuity : string;
  age : string;
  employmentYears : string;
  gender : string;
  contractType : string;
  education : string;
  others : list (string * string)
}.

Definition initialFormData : FormData :=
  {| income := ""; creditAmount := ""; annuity := ""; age := "";
     employmentYears := ""; gender := ""; contractType := ""; education := "";
     others := [] |}.

(** [{ ...entries, [field]: value }] on the added properties: the value of
    an existing property is replaced, a new property is created last. *)
Fixpoint assign (field value : string) (entries : list (string * string))
    : list (string * string) :=
  match entries with
  | [] => [(field, value)]
  | (k, v) :: rest =>
      if k =? field then (k, value) :: rest
      else (k, v) :: assign field value rest
  end.

(** [setFormData(prev => ({ ...prev, [field]: value }))] *)
Definition handleInputChange (field value : string) (prev : FormData) : FormData :=
  if field =? "income" then
    mkFormData value (creditAmount prev) (annuity prev) (age prev)
      (employmentYears prev) (gender prev) (contractType prev) (education prev)
      (others prev)
  else if field =? "creditAmount" then
    mkFormData (income prev) value (annuity prev) (age prev)
      (employmentYears prev) (gender prev) (contractType prev) (education prev)
      (others prev)
  else if field =? "annuity" then
    mkFormData (income prev) (creditAmount prev) value (age prev)
      (employmentYears prev) (gender prev) (contractType prev) (education prev)
      (others prev)
  else if field =? "age" then
    mkFormData (income prev) (creditAmount prev) (annuity prev) value
      (employmentYears prev) (gender prev) (contractType prev) (education prev)
      (others prev)
  else if field =? "employmentYears" then
    mkFormData (income prev) (creditAmount prev) (annuity prev) (age prev)
      value (gender prev) (contractType prev) (education prev) (others prev)
  else if field =? "gender" then
    mkFormData (income prev) (creditAmount prev) (annuity prev) (age prev)
      (employmentYears prev) value (contractType prev) (education prev)
      (others prev)
  else if field =? "contractType" then
    mkFormData (income prev) (creditAmount prev) (annuity prev) (age prev)
      (employmentYears prev) (gender prev) value (education prev) (others prev)
  else if field =? "education" then
    mkFormData (income prev) (creditAmount prev) (annuity prev) (age prev)
      (employmentYears prev) (gender prev) (contractType prev) value
      (others prev)
  else
    mkFormData (income prev) (creditAmount prev) (annuity prev) (age prev)
      (employmentYears prev) (gender prev) (contractType prev) (education prev)
      (assign field value (others prev)).

(** The array index a property name is, if it is one: the decimal text,
    without a leading zero, of an integer below 2^32 - 1. *)
Definition digit (c : Ascii.ascii) : option N :=
  let n := Ascii.N_of_ascii c in
  if (48 <=? n)%N && (n <=? 57)%N then Some (n - 48)%N else None.

Fixpoint decimal (text : string) (value : N) : option N :=
  match text with
  | EmptyString => Some value
  | String c rest =>
      match digit c with
      | Some n => decimal rest (10 * value + n)%N
      | None => None
      end
  end.

Definition array_index (key : string) : option N :=
  match key with
  | EmptyString => None
  | String c rest =>
      (* a leading zero *)
      if (Ascii.N_of_ascii c =? 48)%N && negb (rest =? "") then None
      else
        match decimal key 0 with
        | Some n => if (n <? 4294967295)%N then Some n else None
        | None => None
        end
  end.

Definition is_index (entry : string * string) : bool :=
  match array_index (fst entry) with Some _ => true | None => false end.

Definition index_of (entry : string * string) : N :=
  match array_index (fst entry) with Some n => n | None => 0%N end.

(** The properties named by array indices, in ascending order of the
    index. *)
Fixpoint place (entry : string * string) (sorted : list (string * string))
    : list (string * string) :=
  match sorted with
  | [] => [entry]
  | next :: rest =>
      if (index_of entry <=? index_of next)%N then entry :: sorted
      else next :: place entry rest
  end.

Definition ascending (entries : list (string * string)) : list (string * string) :=
  fold_right place [] entries.

(** [Object.entries(formData)]: the properties whose names are array
    indices come first, in ascending order, then the other properties in
    the order of their creation, the eight declared fields before any added
    one. *)
Definition entries (formData : FormData) : list (string * string) :=
  (ascending (filter is_index (others formData))
   ++ [ ("income", income formData); ("creditAmount", creditAmount formData);
        ("annuity", annuity formData); ("age", age formData);
        ("employmentYears", employmentYears formData);
        ("gender", gender formData); ("contractType", contractType formData);
        ("education", education formData) ]
   ++ filter (fun entry => negb (is_index entry)) (others formData))%list.

(** [requiredFields.filter(([_, value]) => !value)]: the empty string is
    the only falsy string. *)
Definition emptyFields (formData : FormData) : list (string * string) :=
  filter (fun entry => snd entry =? "") (entries formData).

Definition getRiskColor (bucket : string) : string :=
  if bucket =? "A" then "text-risk-a"
  else if bucket =? "B" then "text-risk-b"
  else if bucket =? "C" then "text-risk-c"
  else if bucket =? "D" then "text-risk-d"
  else "text-foreground".

Definition getRiskLabel (bucket : string) : string :=
  if bucket =? "A" then "Low Risk"
  else if bucket =? "B" then "Moderate Risk"
  else if bucket =? "C" then "High Risk"
  else if bucket =? "D" then "Very High Risk"
  else "Unknown".

Record Toast := mkToast {
  title : string;
  description : string;
  variant : option string
}.

(** [{ probability: data.probability, riskBucket: data.bucket }]; the
    members of [data] are whatever the response holds ([None] is
    [undefined]). *)
Record PredictionResult := mkPredictionResult {
  probability : option JSON;
  riskBucket : option JSON
}.

(** What awaiting [supabase.functions.invoke] gives: [{ data, error }],
    with [error] the message of the error object ([None] for [null]), or a
    thrown value, which is an [Error] with a message or something else. *)
Inductive Invoked :=
| Resolved (data : JSON) (error : option string)
| Rejected (thrown : option string).

(** The component state, the toasts shown and the request bodies sent, the
    latest last. *)
Record State := mkState {
  formData : FormData;
  loading : bool;
  result : option PredictionResult;
  toasts : list Toast;
  requests : list ApplicantData
}.

Definition initialState : State :=
  {| formData := initialFormData; loading := false; result := None;
     toasts := []; requests := [] |}.

Section Page.

(** The two parsing functions of the runtime, and the answer of the
    function call for a request body. *)
Variable parseFloat : string -> JS.number.
Variable parseInt : string -> JS.number.
Variable invoke : ApplicantData -> Invoked.

(** The [data] member of the body of the call. *)
Definition requestData (formData : FormData) : ApplicantData :=
  mkApplicantData
    (parseFloat (income formData)) (parseFloat (creditAmount formData))
    (parseFloat (annuity formData)) (parseInt (age formData))
    (parseInt (employmentYears formData))
    (gender formData) (contractType formData) (education formData).

(** The [try] block: the result to show, or the value thrown ([None] for a
    value that is not an [Error]). *)
Definition attempt (formData : FormData) : option string + PredictionResult :=
  match invoke (requestData formData) with
  | Rejected thrown => inl thrown
  | Resolved data (Some message) =>
      inl (Some (if message =? "" then "Prediction failed" else message))
  | Resolved data None =>
      if negb (truthy (Some data))
      then inl (Some "No data returned from prediction")
      else inr {| probability := field data "probability";
                  riskBucket := field data "bucket" |}
  end.

Definition missingInformation : Toast :=
  {| title := "Missing Information";
     description := "Please fill in all fields before predicting.";
     variant := Some "destructive" |}.

Definition predictionComplete : Toast :=
  {| title := "Prediction Complete";
     description := "Risk analysis has been calculated successfully.";
     variant := None |}.

Definition predictionFailed (thrown : option string) : Toast :=
  {| title := "Prediction Failed";
     description := match thrown with
                    | Some message => message
                    | None => "Failed to process prediction request"
                    end;
     variant := Some "destructive" |}.

(** [handlePredict], from the click to the settled state. *)
Definition handlePredict (s : State) : State :=
  if (0 <? List.length (emptyFields (formData s)))%nat
  then mkState (formData s) (loading s) (result s)
         (toasts s ++ [missingInformation]) (requests s)
  else
    (* setLoading(true) *)
    let s := mkState (formData s) true (result s) (toasts s) (requests s) in
    let s := mkState (formData s) (loading s) (result s) (toasts s)
               (requests s ++ [requestData (formData s)]) in
    let s :=
      match attempt (formData s) with
      | inr shown =>
          mkState (formData s) (loading s) (Some shown)
            (toasts s ++ [predictionComplete]) (requests s)
      | inl thrown =>
          mkState (formData s) (loading s) (result s)
            (toasts s ++ [predictionFailed thrown]) (requests s)
      end in
    (* finally: setLoading(false) *)
    mkState (formData s) false (result s) (toasts s) (requests s).

End Page.

(** The value of property [key] of the form state ([None] is
    [undefined]). *)
Definition lookup (key : string) (formData : FormData) : option string :=
  option_map snd (find (fun entry => fst entry =? key) (entries formData)).

(** Lists of properties with the same names in the same places. *)
Definition same_keys (l1 l2 : list (string * string)) : Prop :=
  Forall2 (fun a b => fst a = fst b) l1 l2.

(** A form filled in, and a runtime for it: parsing functions that every
    text sends to 1, and a function call that answers with a prediction. *)
Definition filled_form : FormData :=
  {| income := "100000"; creditAmount := "50000"; annuity := "2000";
     age := "40"; employmentYears := "12"; gender := "M";
     contractType := "Cash loans"; education := "Higher education";
     others := [] |}.

Definition filled_state : State :=
  {| formData := filled_form; loading := false; result := None;
     toasts := []; requests := [] |}.

Definition parse_as_one (text : string) : JS.number := 1%float.

Definition answer_with_prediction (data : ApplicantData) : Invoked :=
  Resolved
    (JObject [ ("probability", JNumber 0.1%float); ("bucket", JString "B") ])
    None.

End Predict.

(** * The backend of the setup guide: [main.py] *)

Module Backend.

Local Open Scope string_scope.

(** The numbers of a feature row: Python integers and floats. *)
Inductive number :=
| Int (n : Z)
| Float (x : float).

(** A dictionary with string keys, as its items in insertion order. *)
Definition dict (A : Type) : Type := list (string * A).

(** [d.get(key)] *)
Fixpoint get {A} (d : dict A) (key : string) : option A :=
  match d with
  | [] => None
  | (k, v) :: rest => if k =? key then Some v else get rest key
  end.

(** [d[key] = value] *)
Fixpoint setitem {A} (d : dict A) (key : string) (value : A) : dict A :=
  match d with
  | [] => [(key, value)]
  | (k, v) :: rest =>
      if k =? key then (k, value) :: rest else (k, v) :: setitem rest key value
  end.

(** [key in d] *)
Definition contains {A} (d : dict A) (key : string) : bool :=
  match get d key with Some _ => true | None => false end.

(** The request model [ApplicantData]: three floats, two integers and
    three strings. *)
Record ApplicantData := mkApplicantData {
  annual_income : float;
  credit_amount : float;
  annuity : float;
  age : Z;
  employment_years : Z;
  gender : string;
  contract_type : string;
  education : string
}.

(** The exceptions of [score]: a missing key, or one the model, the
    calibrator or an encoder raises. *)
Inductive exception :=
| KeyError (key : string)
| Raised (description : string).

(** The answer of [score]: the returned dictionary, or the
    [HTTPException] with its status code and detail. *)
Inductive answer :=
| Returned (probability : float) (bucket : string)
| HTTPException (status_code : Z) (detail : string).

Section Score.

(** The artifacts loaded at startup: [meta["feature_columns"]],
    [meta["cutoffs"]], the medians, the label encoders (the code an
    encoder gives a label, [None] where [transform] raises), the model and
    the calibrator, and [str] on exceptions. *)
Variable feature_columns : list string.
Variable cutoffs : dict float.
Variable feature_medians : dict number.
Variable label_encoders : dict (string -> option Z).
Variable model : list number -> exception + float.
Variable calibrator : float -> exception + float.
Variable str : exception -> string.

(** [feature_medians.get(col, 0)] *)
Definition median (col : string) : number :=
  match get feature_medians col with
  | Some value => value
  | None => Int 0
  end.

(** [{col: feature_medians.get(col, 0) for col in feature_columns}] *)
Definition medians_of (columns : list string) : dict number :=
  fold_left (fun features col => setitem features col (median col)) columns [].

(** One of the three blocks that encode a categorical feature. *)
Definition encode (col label : string) (features : dict number) : dict number :=
  if match get label_encoders col with Some _ => true | None => false end
     && contains features col
  then
    match get label_encoders col with
    | Some transform =>
        match transform label with
        | Some code => setitem features col (Int code)
        | None => setitem features col (median col)
        end
    | None => features
    end
  else features.

(** The dictionary [features] when the row is read from it. *)
Definition features (data : ApplicantData) : dict number :=
  let features := medians_of feature_columns in
  let features := setitem features "AMT_INCOME_TOTAL" (Float (annual_income data)) in
  let features := setitem features "AMT_CREDIT" (Float (credit_amount data)) in
  let features := setitem features "AMT_ANNUITY" (Float (annuity data)) in
  let features := setitem features "DAYS_BIRTH" (Int (- age data * 365)) in
  let features :=
    setitem features "DAYS_EMPLOYED" (Int (- employment_years data * 365)) in
  let features := encode "NAME_CONTRACT_TYPE" (contract_type data) features in
  let features := encode "CODE_GENDER" (gender data) features in
  let features := encode "NAME_EDUCATION_TYPE" (education data) features in
  features.

(** [[features[col] for col in feature_columns]] *)
Fixpoint row (features : dict number) (columns : list string)
    : exception + list number :=
  match columns with
  | [] => inr []
  | col :: rest =>
      match get features col with
      | None => inl (KeyError col)
      | Some value =>
          match row features rest with
          | inl e => inl e
          | inr values => inr (value :: values)
          end
      end
  end.

(** [cutoffs[key]] *)
Definition cutoff (key : string) : exception + float :=
  match get cutoffs key with
  | Some value => inr value
  | None => inl (KeyError key)
  end.

(** The [if]/[elif] chain that assigns the bucket. *)
Definition bucket_of (calibrated_prob : float) : exception + string :=
  match cutoff "A" with
  | inl e => inl e
  | inr a =>
      if (calibrated_prob <=? a)%float then inr "A"
      else
        match cutoff "B" with
        | inl e => inl e
        | inr b =>
            if (calibrated_prob <=? b)%float then inr "B"
            else
              match cutoff "C" with
              | inl e => inl e
              | inr c => if (calibrated_prob <=? c)%float then inr "C" else inr "D"
              end
        end
  end.

(** The [try] block of [score]. *)
Definition predict (data : ApplicantData) : exception + (float * string) :=
  match row (features data) feature_columns with
  | inl e => inl e
  | inr X =>
      match model X with
      | inl e => inl e
      | inr raw_prob =>
          match calibrator raw_prob with
          | inl e => inl e
          | inr calibrated_prob =>
              match bucket_of calibrated_prob with
              | inl e => inl e
              | inr bucket => inr (calibrated_prob, bucket)
              end
          end
      end
  end.

Definition score (data : ApplicantData) : answer :=
  match predict data with
  | inr (probability, bucket) => Returned probability bucket
  | inl e => HTTPException 500 ("Prediction error: " ++ str e)
  end.

(** The value of a column as the guide describes the row: the five mapped
    inputs, the three encoded labels with the median where there is no
    encoder or the label is unknown to it, and the median, or 0, of every
    other column. *)
Definition encoded (col label : string) : number :=
  match get label_encoders col with
  | Some transform =>
      match transform label with
      | Some code => Int code
      | None => median col
      end
  | None => median col
  end.

Definition column_value (data : ApplicantData) (col : string) : number :=
  if col =? "AMT_INCOME_TOTAL" then Float (annual_income data)
  else if col =? "AMT_CREDIT" then Float (credit_amount data)
  else if col =? "AMT_ANNUITY" then Float (annuity data)
  else if col =? "DAYS_BIRTH" then Int (- (age data * 365))
  else if col =? "DAYS_EMPLOYED" then Int (- (employment_years data * 365))
  else if col =? "NAME_CONTRACT_TYPE" then encoded col (contract_type data)
  else if col =? "CODE_GENDER" then encoded col (gender data)
  else if col =? "NAME_EDUCATION_TYPE" then encoded col (education data)
  else median col.

End Score.

(** Sample artifacts: the cutoffs of the bucket guide of the page, four
    feature columns, a model that returns a fixed probability and a
    calibrator that returns what it is given. *)
Definition guide_cutoffs : dict float :=
  [ ("A", 0.06%float); ("B", 0.12%float); ("C", 0.2%float) ].

Definition guide_columns : list string :=
  [ "AMT_INCOME_TOTAL"; "DAYS_BIRTH"; "CODE_GENDER"; "CNT_CHILDREN" ].

Definition fixed_model (X : list number) : exception + float := inr 0.1%float.
Definition identity_calibrator (raw_prob : float) : exception + float := inr raw_prob.
Definition no_description (e : exception) : string := "".

Definition guide_applicant : ApplicantData :=
  {| annual_income := 100000; credit_amount := 50000; annuity := 2000;
     age := 40; employment_years := 12; gender := "M";
     contract_type := "Cash loans"; education := "Higher education" |}.

End Backend.

(** * Properties *)

(** ** The model on concrete inputs *)

Example stacking_scenario :
  riskScore stacking_applicant = 0 + 0.04 + 0.05 + 0.02 + 0.02
  /\ (riskScore low_risk_applicant <? riskScore stacking_applicant) = true
  /\ riskScore low_risk_applicant = 0 - 0.02 - 0.02
  /\ baseProbability low_risk_applicant = 0.
Proof. repeat split; reflexivity. Qed.

Example tie_goes_to_the_safer_bucket :
  assignBucket sample_cutoffs 0.05 = "A"%string
  /\ assignBucket sample_cutoffs 0.1 = "B"%string
  /\ assignBucket sample_cutoffs 0.2 = "C"%string
  /\ assignBucket sample_cutoffs 0.21 = "D"%string
  /\ assignBucket sample_cutoffs nan = "D"%string.
Proof. repeat split; reflexivity. Qed.

Example unparsable_body_fails :
  serve {| method := "POST"; json := None |}
  = failure (no_runtime_message BodyNotJSON).
Proof. reflexivity. Qed.

Example preflight_response :
  serve preflight = {| status := 200; headers := corsHeaders; body := NoBody |}.
Proof. reflexivity. Qed.

(** ** The order of binary64 values

    [SFcompare] orders the specification floats; the comparisons of the
    primitive floats are stated through it. *)

Module SFOrder.

Import Binary64.

Ltac split_compare :=
  repeat match goal with
  | H : context [(?a ?= ?b)%Z] |- _ => destruct (Z.compare_spec a b)
  | |- context [(?a ?= ?b)%Z] => destruct (Z.compare_spec a b)
  | H : context [(?a ?= ?b)%positive] |- _ => destruct (Pos.compare_spec a b)
  | |- context [(?a ?= ?b)%positive] => destruct (Pos.compare_spec a b)
  end.

Lemma SFcompare_antisym (x y : spec_float) :
  SFcompare y x = option_map CompOpp (SFcompare x y).
Proof.
  destruct x as [[]|[]| |[] mx ex], y as [[]|[]| |[] my ey]; cbn; try reflexivity;
    rewrite (Z.compare_antisym ex ey);
    destruct (ex ?= ey)%Z; cbn; try reflexivity;
    change (Pos.compare_cont Eq my mx) with (my ?= mx)%positive;
    change (Pos.compare_cont Eq mx my) with (mx ?= my)%positive;
    rewrite (Pos.compare_antisym mx my);
    destruct (mx ?= my)%positive; reflexivity.
Qed.

Lemma SFcompare_trans (x y z : spec_float) (c1 c2 : comparison) :
  SFcompare x y = Some c1 -> SFcompare y z = Some c2 ->
  weak c1 = true -> weak c2 = true ->
  SFcompare x z = Some (join c1 c2).
Proof.
  destruct x as [[]|[]| |[] mx ex], y as [[]|[]| |[] my ey], z as [[]|[]| |[] mz ez];
    cbn; intros H1 H2 W1 W2;
    try discriminate;
    injection H1 as <-; injection H2 as <-; try (reflexivity || discriminate).
  all: change (Pos.compare_cont Eq) with Pos.compare in *.
  all: split_compare; cbn in *; try discriminate; try reflexivity; try lia.
Qed.

End SFOrder.

Module FloatOrder.

Import Binary64 SFOrder.

Lemma ltb_cmp (x y : float) : (x <? y) = true <-> cmp x y = Some Lt.
Proof.
  rewrite FloatAxioms.ltb_spec. unfold SFltb, cmp.
  destruct (SFcompare _ _) as [[]|]; split; congruence.
Qed.

Lemma leb_cmp (x y : float) :
  (x <=? y) = true <-> exists c, cmp x y = Some c /\ weak c = true.
Proof.
  rewrite FloatAxioms.leb_spec. unfold SFleb, cmp.
  destruct (SFcompare _ _) as [[]|]; split; try discriminate; eauto;
    intros (c & H & W); try discriminate; injection H as <-; discriminate.
Qed.

Lemma cmp_antisym (x y : float) : cmp y x = option_map CompOpp (cmp x y).
Proof. apply SFcompare_antisym. Qed.

Lemma is_nan_spec (x : float) : is_nan x = true <-> Prim2SF x = S754_nan.
Proof.
  unfold is_nan. rewrite FloatAxioms.eqb_spec. unfold SFeqb.
  destruct (Prim2SF x) as [[]|[]| |[] m e] eqn:E; cbn; split; try congruence;
    rewrite Z.compare_refl; change (Pos.compare_cont Eq m m) with (m ?= m)%positive;
    rewrite Pos.compare_refl; discriminate.
Qed.

Lemma cmp_none (x y : float) :
  cmp x y = None <-> is_nan x = true \/ is_nan y = true.
Proof.
  rewrite !is_nan_spec. unfold cmp.
  destruct (Prim2SF x) as [[]|[]| |[] mx ex], (Prim2SF y) as [[]|[]| |[] my ey];
    cbn; split; intros H; try discriminate; try tauto;
    destruct H; discriminate.
Qed.

Lemma ltb_trans (x y z : float) :
  (x <? y) = true -> (y <? z) = true -> (x <? z) = true.
Proof.
  rewrite !ltb_cmp. intros H1 H2.
  apply (SFcompare_trans _ _ _ _ _ H1 H2); reflexivity.
Qed.

Lemma ltb_leb_trans (x y z : float) :
  (x <? y) = true -> (y <=? z) = true -> (x <? z) = true.
Proof.
  rewrite !ltb_cmp, leb_cmp. unfold cmp. intros H1 (c & H2 & W).
  rewrite (SFcompare_trans _ _ _ _ _ H1 H2 eq_refl W). reflexivity.
Qed.

Lemma leb_ltb_trans (x y z : float) :
  (x <=? y) = true -> (y <? z) = true -> (x <? z) = true.
Proof.
  rewrite !ltb_cmp, leb_cmp. unfold cmp. intros (c & H1 & W) H2.
  rewrite (SFcompare_trans _ _ _ _ _ H1 H2 W eq_refl). destruct c; reflexivity.
Qed.

Lemma leb_trans (x y z : float) :
  (x <=? y) = true -> (y <=? z) = true -> (x <=? z) = true.
Proof.
  rewrite !leb_cmp. intros (c1 & H1 & W1) (c2 & H2 & W2).
  exists (join c1 c2). split.
  - apply (SFcompare_trans _ _ _ _ _ H1 H2 W1 W2).
  - destruct c1, c2; reflexivity.
Qed.

Lemma ltb_leb (x y : float) : (x <? y) = true -> (x <=? y) = true.
Proof. rewrite ltb_cmp, leb_cmp. intros H. exists Lt. auto. Qed.

(** [x < y] excludes [y <= x]. *)
Lemma ltb_not_leb (x y : float) : (x <? y) = true -> (y <=? x) = false.
Proof.
  rewrite ltb_cmp. intros H.
  destruct (y <=? x) eqn:E; [|reflexivity].
  apply leb_cmp in E. destruct E as (c & E & W).
  rewrite cmp_antisym, H in E. injection E as <-. discriminate.
Qed.

Lemma leb_not_ltb (x y : float) : (x <=? y) = true -> (y <? x) = false.
Proof.
  intros H. destruct (y <? x) eqn:E; [|reflexivity].
  apply ltb_not_leb in E. congruence.
Qed.

(** Two numbers, neither of them NaN, are comparable. *)
Lemma leb_or_ltb (x y : float) :
  is_nan x = false -> is_nan y = false -> (x <=? y) = negb (y <? x).
Proof.
  intros Hx Hy.
  destruct (cmp x y) as [c|] eqn:E.
  - destruct (y <? x) eqn:L; cbn.
    + now apply ltb_not_leb.
    + apply leb_cmp. exists c. split; [exact E|].
      destruct c; try reflexivity.
      assert (cmp y x = Some Lt) as F by (rewrite cmp_antisym, E; reflexivity).
      apply ltb_cmp in F. congruence.
  - apply cmp_none in E. destruct E; congruence.
Qed.

Lemma ltb_not_nan (x y : float) :
  (x <? y) = true -> is_nan x = false /\ is_nan y = false.
Proof.
  rewrite ltb_cmp. intros H.
  destruct (is_nan x) eqn:Hx, (is_nan y) eqn:Hy; auto;
    assert (cmp x y = None) as F by (apply cmp_none; auto); congruence.
Qed.

Lemma leb_not_nan (x y : float) :
  (x <=? y) = true -> is_nan x = false /\ is_nan y = false.
Proof.
  rewrite leb_cmp. intros (c & H & _).
  destruct (is_nan x) eqn:Hx, (is_nan y) eqn:Hy; auto;
    assert (cmp x y = None) as F by (apply cmp_none; auto); congruence.
Qed.

End FloatOrder.

(** ** Rounding

    Bounds on what [SFadd] and [SFmul] round to, from the definitions of
    [SpecFloat]: enough to bound a sum whose exact value is small. *)

Module Rounding.

Import Binary64.
Local Open Scope Z_scope.

(** *** Shifts and the shape of a rounding *)

Lemma digits_bounds (m : positive) :
  2 ^ (digits m - 1) <= Zpos m < 2 ^ digits m.
Proof.
  induction m as [p IH|p IH|]; cbn [digits2_pos];
    rewrite ?Pos2Z.inj_succ.
  - replace (Z.succ (digits p) - 1) with (Z.succ (digits p - 1)) by lia.
    rewrite !Z.pow_succ_r by lia. lia.
  - replace (Z.succ (digits p) - 1) with (Z.succ (digits p - 1)) by lia.
    rewrite !Z.pow_succ_r by lia. lia.
  - cbn. lia.
Qed.

Lemma shr_1_m (r : shr_record) :
  0 <= shr_m r -> shr_m (shr_1 r) = shr_m r / 2.
Proof.
  destruct r as [[|[p|p|]|p] r s]; cbn [shr_m shr_1]; intros H; try lia.
  - reflexivity.
  - rewrite Pos2Z.inj_xI. apply (Z.div_unique _ 2 _ 1); lia.
  - rewrite Pos2Z.inj_xO. apply (Z.div_unique _ 2 _ 0); lia.
  - reflexivity.
Qed.

Lemma iter_shr_m (n : positive) (r : shr_record) :
  0 <= shr_m r ->
  shr_m (SpecFloat.iter_pos shr_1 n r) = shr_m r / 2 ^ Zpos n.
Proof.
  revert r. induction n as [n IH|n IH|]; intros r H; cbn [SpecFloat.iter_pos].
  - assert (0 <= shr_m (shr_1 r)) as H1
        by (rewrite shr_1_m by exact H; apply Z.div_pos; lia).
    assert (0 <= shr_m (SpecFloat.iter_pos shr_1 n (shr_1 r))) as H2
        by (rewrite IH by exact H1; apply Z.div_pos; lia).
    rewrite (IH _ H2), (IH _ H1), shr_1_m by exact H.
    rewrite !Z.div_div by lia. f_equal.
    replace (Zpos n~1) with (1 + Zpos n + Zpos n) by lia.
    rewrite !Z.pow_add_r, Z.pow_1_r by lia. ring.
  - assert (0 <= shr_m (SpecFloat.iter_pos shr_1 n r)) as H2
        by (rewrite IH by exact H; apply Z.div_pos; lia).
    rewrite (IH _ H2), (IH _ H).
    rewrite !Z.div_div by lia. f_equal.
    replace (Zpos n~0) with (Zpos n + Zpos n) by lia.
    rewrite !Z.pow_add_r by lia. ring.
  - rewrite shr_1_m by exact H. reflexivity.
Qed.

Lemma round_nearest_even_bounds (q : Z) (l : location) :
  q <= round_nearest_even q l <= q + 1.
Proof.
  destruct l as [|[]]; cbn; try lia. destruct (Z.even q); lia.
Qed.

(** The shift of [shr_fexp] on an exact non-negative mantissa. *)
Lemma shr_fexp_exact (m e : Z) :
  0 <= m ->
  exists r, shr_fexp prec emax m e loc_Exact = (r, shifted m e)
            /\ shr_m r = m / 2 ^ (shifted m e - e)
            /\ (shifted m e = e -> loc_of_shr_record r = loc_Exact).
Proof.
  intros Hm. set (e' := shifted m e). unfold shifted in e'.
  unfold shr_fexp, shr. cbn [shr_record_of_loc].
  destruct (fexp (Zdigits2 m + e) - e) as [|n|n] eqn:E.
  - exists {| shr_m := m; shr_r := false; shr_s := false |}.
    replace e' with e by (unfold e'; lia).
    rewrite Z.sub_diag, Z.div_1_r. auto.
  - exists (SpecFloat.iter_pos shr_1 n {| shr_m := m; shr_r := false; shr_s := false |}).
    replace e' with (e + Zpos n) by (unfold e'; lia).
    rewrite iter_shr_m by exact Hm. cbn [shr_m].
    replace (e + Zpos n - e) with (Zpos n) by lia.
    repeat split. lia.
  - exists {| shr_m := m; shr_r := false; shr_s := false |}.
    replace e' with e by (unfold e'; lia).
    rewrite Z.sub_diag, Z.div_1_r. auto.
Qed.

(** The shape of a rounding from an exact mantissa: a first shift to the
    exponent [e1], a step up by at most one unit, a second shift. *)
Lemma binary_round_aux_exact (s : bool) (m : positive) (e : Z) :
  exists m1,
    Zpos m / 2 ^ (shifted (Zpos m) e - e) <= m1
      <= Zpos m / 2 ^ (shifted (Zpos m) e - e) + 1
    /\ (shifted (Zpos m) e = e -> m1 = Zpos m)
    /\ binary_round_aux prec emax s (Zpos m) e loc_Exact
       = finish s (m1 / 2 ^ (shifted m1 (shifted (Zpos m) e) - shifted (Zpos m) e))
           (shifted m1 (shifted (Zpos m) e)).
Proof.
  unfold binary_round_aux.
  destruct (shr_fexp_exact (Zpos m) e (Pos2Z.is_nonneg m)) as (r & -> & Hr & Hl).
  set (e1 := shifted (Zpos m) e) in *.
  set (m1 := round_nearest_even (shr_m r) (loc_of_shr_record r)).
  assert (shr_m r <= m1 <= shr_m r + 1) as Hm1 by apply round_nearest_even_bounds.
  assert (0 <= shr_m r) as Hq
    by (rewrite Hr; apply Z_div_nonneg_nonneg; [lia|apply Z.pow_nonneg; lia]).
  exists m1. rewrite <- Hr. split; [exact Hm1|]. split.
  - intros He. unfold m1. rewrite (Hl He). cbn.
    rewrite Hr, He, Z.sub_diag, Z.div_1_r. reflexivity.
  - assert (0 <= m1) as Hpos by lia.
    destruct (shr_fexp_exact m1 e1 Hpos) as (r2 & -> & Hr2 & _).
    rewrite Hr2. reflexivity.
Qed.

(** *** Scaled values *)

Lemma shl_align_value (m : positive) (e e' : Z) :
  -1074 <= e' ->
  snd (shl_align m e e') = Z.min e e'
  /\ V (Zpos (fst (shl_align m e e'))) (Z.min e e') = V (Zpos m) e.
Proof.
  intros He'. unfold shl_align.
  destruct (e' - e) as [|d|d] eqn:E; cbn [fst snd].
  - split; [lia|]. replace (Z.min e e') with e by lia. reflexivity.
  - split; [lia|]. replace (Z.min e e') with e by lia. reflexivity.
  - split; [lia|]. replace (Z.min e e') with e' by lia.
    change (Pos.iter xO m d) with (Zpower.shift (Zpos d) m).
    rewrite Zpower.shift_equiv, Z.shiftl_mul_pow2 by lia.
    unfold V. rewrite <- Z.mul_assoc, <- Z.pow_add_r by lia.
    f_equal. f_equal. lia.
Qed.

Lemma V_mono_e (m e e' : Z) : 0 <= m -> e <= e' -> V m e <= V m e'.
Proof.
  intros Hm He. unfold V. apply Z.mul_le_mono_nonneg_l; [exact Hm|].
  destruct (Z_lt_le_dec (e + 1074) 0) as [Hn|Hn].
  - rewrite (Z.pow_neg_r 2 (e + 1074)) by exact Hn. apply Z.pow_nonneg. lia.
  - apply Z.pow_le_mono_r; lia.
Qed.

(** Dividing the mantissa while raising the exponent does not increase
    the value, and loses less than one unit of the new exponent. *)
Lemma V_shift_le (m e e' : Z) :
  0 <= m -> -1074 <= e <= e' -> V (m / 2 ^ (e' - e)) e' <= V m e.
Proof.
  intros Hm He. unfold V.
  replace (e' + 1074) with ((e' - e) + (e + 1074)) by lia.
  rewrite Z.pow_add_r, Z.mul_assoc by lia.
  apply Z.mul_le_mono_nonneg_r; [apply Z.pow_nonneg; lia|].
  rewrite Z.mul_comm. apply Z.mul_div_le. apply Z.pow_pos_nonneg; lia.
Qed.

Lemma finish_cases (s : bool) (m e : Z) :
  0 <= m ->
  finish s m e = S754_zero s
  \/ (exists p, m = Zpos p /\ e <= emax - prec /\ finish s m e = S754_finite s p e)
  \/ (0 < m /\ emax - prec < e /\ finish s m e = S754_infinity s).
Proof.
  intros Hm. destruct m as [|p|p]; cbn [finish]; [auto| |lia].
  destruct (Z.leb_spec e (emax - prec)); [right; left; eauto|right; right].
  repeat split; lia.
Qed.

(** Rounding an exact positive mantissa yields a zero, or a finite value
    or an infinity of the same sign whose magnitude exceeds the exact one
    by at most one unit of the shifted exponent. *)
Lemma binary_round_aux_upper (s : bool) (m : positive) (e : Z) :
  -1074 <= e ->
  exists m2 e2,
    0 <= m2 /\ shifted (Zpos m) e <= e2
    /\ V m2 e2 <= V (Zpos m) e + V 1 (shifted (Zpos m) e)
    /\ binary_round_aux prec emax s (Zpos m) e loc_Exact = finish s m2 e2.
Proof.
  intros He.
  destruct (binary_round_aux_exact s m e) as (m1 & Hm1 & _ & ->).
  set (e1 := shifted (Zpos m) e) in *.
  assert (e <= e1) as He1 by (unfold e1, shifted; lia).
  set (e2 := shifted m1 e1).
  assert (e1 <= e2) as He2 by (unfold e2, shifted; lia).
  assert (0 <= Zpos m / 2 ^ (e1 - e)) as Hq
    by (apply Z_div_nonneg_nonneg; [lia|apply Z.pow_nonneg; lia]).
  exists (m1 / 2 ^ (e2 - e1)), e2. repeat split.
  - apply Z_div_nonneg_nonneg; [lia|apply Z.pow_nonneg; lia].
  - exact He2.
  - pose proof (V_shift_le m1 e1 e2 ltac:(lia) ltac:(lia)) as H1.
    pose proof (V_shift_le (Zpos m) e e1 ltac:(lia) ltac:(lia)) as H2.
    assert (V m1 e1 <= V (Zpos m / 2 ^ (e1 - e)) e1 + V 1 e1) as H3.
    { unfold V. rewrite <- Z.mul_add_distr_r.
      apply Z.mul_le_mono_nonneg_r; [apply Z.pow_nonneg|]; lia. }
    lia.
Qed.

Lemma shifted_le (m : positive) (e t : Z) :
  -1074 <= e <= t - 53 -> V (Zpos m) e < V 1 t ->
  shifted (Zpos m) e <= t - 53.
Proof.
  intros He Hv. unfold shifted, SpecFloat.fexp, SpecFloat.emin, prec, emax.
  cbn [Zdigits2]. destruct (digits_bounds m) as [Hd _].
  assert (digits m + e <= t); [|lia].
  destruct (Z_lt_le_dec t (digits m + e)) as [Hlt|]; [exfalso|assumption].
  assert (V 1 t <= V (Zpos m) e); [|lia].
  unfold V. rewrite Z.mul_1_l.
  replace (t + 1074) with ((t - e) + (e + 1074)) by lia.
  rewrite Z.pow_add_r by lia.
  apply Z.mul_le_mono_nonneg_r; [apply Z.pow_nonneg; lia|].
  apply Z.le_trans with (2 := Hd). apply Z.pow_le_mono_r; lia.
Qed.

(** The rounding used by addition: [binary_round]. *)
Lemma binary_round_upper (s : bool) (m : positive) (e t : Z) :
  -1074 <= e <= t - 53 -> V (Zpos m) e < V 1 t ->
  exists m2 e2,
    0 <= m2
    /\ V m2 e2 <= V (Zpos m) e + V 1 (t - 53)
    /\ binary_round prec emax s m e = finish s m2 e2.
Proof.
  intros He Hv. unfold binary_round.
  set (e' := SpecFloat.fexp prec emax (digits m + e)).
  assert (-1074 <= e') as He'
    by (unfold e', SpecFloat.fexp, SpecFloat.emin, prec, emax; lia).
  destruct (shl_align_value m e e' He') as [Hs Hz].
  destruct (shl_align m e e') as [mz ez]. cbn [fst snd] in Hs, Hz. subst ez.
  assert (-1074 <= Z.min e e') as Hmin by lia.
  destruct (binary_round_aux_upper s mz (Z.min e e') Hmin)
    as (m2 & e2 & Hm2 & He2 & Hb & ->).
  exists m2, e2. repeat split; [exact Hm2|].
  rewrite Hz in Hb.
  assert (shifted (Zpos mz) (Z.min e e') <= t - 53) as Hsh
    by (apply shifted_le; [lia|rewrite Hz; exact Hv]).
  pose proof (V_mono_e 1 _ _ ltac:(lia) Hsh). lia.
Qed.

(** *** Canonical representations and the order *)

Lemma bounded_facts (m : positive) (e : Z) :
  bounded prec emax m e = true ->
  -1074 <= e <= 971 /\ digits m <= 53 /\ (-1074 < e -> digits m = 53).
Proof.
  unfold bounded, canonical_mantissa, SpecFloat.fexp, SpecFloat.emin, prec, emax.
  rewrite andb_true_iff, Z.eqb_eq, Z.leb_le. lia.
Qed.

Lemma V_lt_of_exponent (m1 m2 : positive) (e1 e2 : Z) :
  bounded prec emax m1 e1 = true -> bounded prec emax m2 e2 = true ->
  e1 < e2 -> V (Zpos m1) e1 < V (Zpos m2) e2.
Proof.
  intros B1 B2 He.
  destruct (bounded_facts _ _ B1) as (He1 & Hd1 & _).
  destruct (bounded_facts _ _ B2) as (He2 & _ & Hd2).
  destruct (digits_bounds m1) as [_ Hu]. destruct (digits_bounds m2) as [Hl _].
  rewrite Hd2 in Hl by lia.
  assert (Zpos m1 < 2 ^ 53) as Hu'
    by (apply Z.lt_le_trans with (1 := Hu); apply Z.pow_le_mono_r; lia).
  unfold V.
  replace (e2 + 1074) with ((e2 - e1 - 1) + 1 + (e1 + 1074)) by lia.
  rewrite (Z.pow_add_r 2 (e2 - e1 - 1 + 1)), (Z.pow_add_r 2 (e2 - e1 - 1)) by lia.
  rewrite Z.mul_assoc.
  apply Z.mul_lt_mono_pos_r; [apply Z.pow_pos_nonneg; lia|].
  assert (1 <= 2 ^ (e2 - e1 - 1)) by (apply (Z.pow_le_mono_r 2 0); lia).
  change (2 ^ (53 - 1)) with 4503599627370496 in Hl.
  change (2 ^ 53) with 9007199254740992 in Hu'. change (2 ^ 1) with 2.
  nia.
Qed.

Lemma compare_V (m1 m2 : positive) (e1 e2 : Z) :
  bounded prec emax m1 e1 = true -> bounded prec emax m2 e2 = true ->
  match e1 ?= e2 with
  | Eq => Pos.compare_cont Eq m1 m2
  | Lt => Lt
  | Gt => Gt
  end = (V (Zpos m1) e1 ?= V (Zpos m2) e2).
Proof.
  intros B1 B2. destruct (Z.compare_spec e1 e2) as [->|H|H].
  - destruct (bounded_facts _ _ B2) as (He & _).
    assert (0 < 2 ^ (e2 + 1074)) as Hp by (apply Z.pow_pos_nonneg; lia).
    change (Pos.compare_cont Eq m1 m2) with (Zpos m1 ?= Zpos m2).
    unfold V. symmetry.
    destruct (Z.compare_spec (Zpos m1) (Zpos m2)) as [E|E|E].
    + rewrite E. apply Z.compare_refl.
    + apply Z.compare_lt_iff. now apply Z.mul_lt_mono_pos_r.
    + apply Z.compare_gt_iff. now apply Z.mul_lt_mono_pos_r.
  - symmetry. apply Z.compare_lt_iff. now apply V_lt_of_exponent.
  - symmetry. apply Z.compare_gt_iff. now apply V_lt_of_exponent.
Qed.

Lemma V_add (a b e : Z) : V (a + b) e = V a e + V b e.
Proof. unfold V. ring. Qed.

Lemma V_opp (a e : Z) : V (- a) e = - V a e.
Proof. unfold V. ring. Qed.

Lemma V_ge_unit (m e : Z) : 0 < m -> -1074 <= e -> V 1 e <= V m e.
Proof.
  intros Hm He. unfold V.
  apply Z.mul_le_mono_nonneg_r; [apply Z.pow_nonneg|]; lia.
Qed.

(** The sum of two canonical finite numbers whose exact sum [v] satisfies
    [|v| < 1/2]: a zero, or a finite number of the sign of [v] within
    [2^-54] of it in magnitude. *)
Lemma SFadd_finite (sx sy : bool) (mx my : positive) (ex ey : Z) :
  bounded prec emax mx ex = true -> bounded prec emax my ey = true ->
  ex <= -54 ->
  let v := V (cond_Zopp sx (Zpos mx)) ex + V (cond_Zopp sy (Zpos my)) ey in
  Z.abs v < V 1 (-1) ->
  exists s m2 e2,
    0 <= m2
    /\ (0 < m2 -> s = (v <? 0))
    /\ V m2 e2 <= Z.abs v + V 1 (-54)
    /\ SFadd prec emax (S754_finite sx mx ex) (S754_finite sy my ey)
       = finish s m2 e2.
Proof.
  intros Bx By Hex v Hv. cbn [SFadd].
  destruct (bounded_facts _ _ Bx) as (Hx & _). destruct (bounded_facts _ _ By) as (Hy & _).
  set (ez := Z.min ex ey).
  destruct (shl_align_value mx ex ez ltac:(lia)) as [_ Vx].
  destruct (shl_align_value my ey ez ltac:(lia)) as [_ Vy].
  replace (Z.min ex ez) with ez in Vx by lia.
  replace (Z.min ey ez) with ez in Vy by lia.
  set (ax := Zpos (fst (shl_align mx ex ez))) in *.
  set (ay := Zpos (fst (shl_align my ey ez))) in *.
  assert (V (cond_Zopp sx ax + cond_Zopp sy ay) ez = v) as Hsum.
  { rewrite V_add. unfold v.
    destruct sx, sy; cbn [cond_Zopp]; rewrite ?V_opp, Vx, Vy; reflexivity. }
  destruct (cond_Zopp sx ax + cond_Zopp sy ay) as [|m|m] eqn:EM; cbn [binary_normalize].
  - exists false, 0, 0. cbn [finish]. repeat split; try lia.
    unfold V at 1. pose proof (V_ge_unit 1 (-54) ltac:(lia) ltac:(lia)).
    unfold V in *. lia.
  - assert (0 < v) as Hpos
      by (rewrite <- Hsum; unfold V; apply Z.mul_pos_pos;
          [lia|apply Z.pow_pos_nonneg; lia]).
    assert (V (Zpos m) ez < V 1 (-1)) as Hlt by lia.
    destruct (binary_round_upper false m ez (-1) ltac:(lia) Hlt)
      as (m2 & e2 & Hm2 & Hb & ->).
    change (-1 - 53) with (-54) in Hb.
    exists false, m2, e2. repeat split; lia.
  - assert (v < 0) as Hneg.
    { rewrite <- Hsum. unfold V. apply Z.mul_neg_pos; [lia|].
      apply Z.pow_pos_nonneg; lia. }
    assert (V (Zpos m) ez = - v) as Hsum'
      by (rewrite <- Hsum, <- V_opp; reflexivity).
    assert (V (Zpos m) ez < V 1 (-1)) as Hlt by lia.
    destruct (binary_round_upper true m ez (-1) ltac:(lia) Hlt)
      as (m2 & e2 & Hm2 & Hb & ->).
    change (-1 - 53) with (-54) in Hb.
    exists true, m2, e2. repeat split; lia.
Qed.

Lemma SFleb_pos_pos (m1 m2 : positive) (e1 e2 : Z) :
  bounded prec emax m1 e1 = true -> bounded prec emax m2 e2 = true ->
  SFleb (S754_finite false m1 e1) (S754_finite false m2 e2)
  = (V (Zpos m1) e1 <=? V (Zpos m2) e2).
Proof.
  intros B1 B2. unfold SFleb. cbn [SFcompare]. rewrite (compare_V _ _ _ _ B1 B2).
  unfold Z.leb. destruct (V (Zpos m1) e1 ?= V (Zpos m2) e2); reflexivity.
Qed.

Lemma SFleb_neg_neg (m1 m2 : positive) (e1 e2 : Z) :
  bounded prec emax m1 e1 = true -> bounded prec emax m2 e2 = true ->
  SFleb (S754_finite true m1 e1) (S754_finite true m2 e2)
  = (V (Zpos m2) e2 <=? V (Zpos m1) e1).
Proof.
  intros B1 B2. unfold SFleb. cbn [SFcompare].
  pose proof (compare_V _ _ _ _ B1 B2) as H.
  unfold Z.leb. rewrite (Z.compare_antisym (V (Zpos m1) e1)), <- H.
  destruct (e1 ?= e2); [destruct (Pos.compare_cont Eq m1 m2)| |]; reflexivity.
Qed.

Lemma exponent_le (m1 m2 : positive) (e1 e2 : Z) :
  bounded prec emax m1 e1 = true -> bounded prec emax m2 e2 = true ->
  V (Zpos m1) e1 <= V (Zpos m2) e2 -> e1 <= e2.
Proof.
  intros B1 B2 H. destruct (Z_lt_le_dec e2 e1) as [Hlt|]; [|assumption].
  pose proof (V_lt_of_exponent _ _ _ _ B2 B1 Hlt). lia.
Qed.

(** *** The sum of a clamped score and a perturbation *)

Lemma range_numbers :
  V (Zpos m_28) (-54) + V (Zpos m_01) (-59) + V 1 (-54) < V (Zpos m_41) (-54)
  /\ V (Zpos m_28) (-54) + V (Zpos m_01) (-59) < V 1 (-1)
  /\ V 1 (-54) <= V (Zpos m_009) (-59)
  /\ V (Zpos m_01) (-59) <= V (Zpos m_41) (-54)
  /\ V (Zpos m_41) (-54) < V 1 972.
Proof. vm_compute. repeat split; congruence. Qed.

Lemma in_range_finish (s : bool) (m2 e2 v : Z) :
  valid_binary (finish s m2 e2) = true ->
  0 <= m2 -> (0 < m2 -> s = (v <? 0)) ->
  V m2 e2 <= Z.abs v + V 1 (-54) ->
  - (V (Zpos m_01) (-59) - V (Zpos m_009) (-59)) <= v
    <= V (Zpos m_28) (-54) + V (Zpos m_01) (-59) ->
  in_range (finish s m2 e2).
Proof.
  intros Hvalid Hm2 Hs Hb Hv.
  destruct range_numbers as (N1 & N2 & N3 & N4 & N5).
  destruct (finish_cases s m2 e2 Hm2) as [E|[(p & -> & He & E)|(Hp & He & E)]];
    rewrite E in *; unfold in_range.
  - destruct s; split; reflexivity.
  - cbn [SpecFloat.valid_binary] in Hvalid. specialize (Hs ltac:(lia)).
    destruct s.
    + split; [|reflexivity].
      rewrite SFleb_neg_neg by (exact Hvalid || reflexivity).
      apply Z.leb_le. symmetry in Hs. apply Z.ltb_lt in Hs. lia.
    + split; [reflexivity|].
      rewrite SFleb_pos_pos by (exact Hvalid || reflexivity).
      apply Z.leb_le. symmetry in Hs. apply Z.ltb_ge in Hs. lia.
  - exfalso.
    pose proof (V_ge_unit m2 e2 Hp ltac:(unfold emax, prec in He; lia)) as H1.
    pose proof (V_mono_e 1 972 e2 ltac:(lia) ltac:(unfold emax, prec in He; lia)) as H2.
    lia.
Qed.

Lemma V_nonneg (m e : Z) : 0 <= m -> 0 <= V m e.
Proof. intros H. unfold V. apply Z.mul_nonneg_nonneg; [exact H|apply Z.pow_nonneg; lia]. Qed.

Lemma in_range_small (E : spec_float) :
  valid_binary E = true ->
  SFleb (S754_finite true m_01 (-59)) E = true ->
  SFleb E (S754_finite false m_01 (-59)) = true ->
  in_range E.
Proof.
  intros VE Hl Hu. split; [exact Hl|].
  destruct range_numbers as (_ & _ & _ & N4 & _).
  destruct E as [s|s| |se me ee].
  - destruct s; reflexivity.
  - destruct s; [reflexivity|discriminate Hu].
  - discriminate Hu.
  - destruct se; [reflexivity|].
    cbn [SpecFloat.valid_binary] in VE.
    rewrite SFleb_pos_pos in Hu |- * by (exact VE || reflexivity).
    apply Z.leb_le in Hu. apply Z.leb_le. lia.
Qed.

(** A perturbation between -0.01 and 0.01 is a zero or a finite number of
    magnitude at most 0.01. *)
Lemma small_cases (E : spec_float) :
  valid_binary E = true ->
  SFleb (S754_finite true m_01 (-59)) E = true ->
  SFleb E (S754_finite false m_01 (-59)) = true ->
  (exists s, E = S754_zero s)
  \/ exists se me ee,
       E = S754_finite se me ee /\ bounded prec emax me ee = true
       /\ V (Zpos me) ee <= V (Zpos m_01) (-59).
Proof.
  intros VE Hl Hu. destruct E as [s|s| |se me ee].
  - left. now exists s.
  - destruct s; [discriminate Hl|discriminate Hu].
  - discriminate Hu.
  - right. exists se, me, ee. cbn [SpecFloat.valid_binary] in VE.
    split; [reflexivity|]. split; [exact VE|]. destruct se.
    + rewrite SFleb_neg_neg in Hl by (exact VE || reflexivity).
      now apply Z.leb_le in Hl.
    + rewrite SFleb_pos_pos in Hu by (exact VE || reflexivity).
      now apply Z.leb_le in Hu.
Qed.

(** A number between 0.009 and 0.28 is finite and positive. *)
Lemma base_cases (X : spec_float) :
  valid_binary X = true ->
  SFleb (S754_finite false m_009 (-59)) X = true ->
  SFleb X (S754_finite false m_28 (-54)) = true ->
  exists mx ex,
    X = S754_finite false mx ex /\ bounded prec emax mx ex = true
    /\ V (Zpos m_009) (-59) <= V (Zpos mx) ex <= V (Zpos m_28) (-54)
    /\ ex <= -54.
Proof.
  intros VX Hlo Hhi. destruct X as [s|s| |s mx ex].
  - discriminate Hlo.
  - destruct s; [discriminate Hlo|discriminate Hhi].
  - discriminate Hlo.
  - destruct s; [discriminate Hlo|].
    cbn [SpecFloat.valid_binary] in VX.
    rewrite SFleb_pos_pos in Hlo, Hhi by (exact VX || reflexivity).
    apply Z.leb_le in Hlo, Hhi.
    exists mx, ex. repeat split; try assumption.
    apply (exponent_le mx m_28); [exact VX|reflexivity|exact Hhi].
Qed.

(** Adding a perturbation between -0.01 and 0.01 to [+0] or to a number
    between 0.009 and 0.28 gives a number between -0.01 and 0.41. *)
Lemma SFadd_in_range (X E : spec_float) :
  valid_binary X = true -> valid_binary E = true ->
  valid_binary (SFadd prec emax X E) = true ->
  X = S754_zero false
  \/ (SFleb (S754_finite false m_009 (-59)) X = true
      /\ SFleb X (S754_finite false m_28 (-54)) = true) ->
  SFleb (S754_finite true m_01 (-59)) E = true ->
  SFleb E (S754_finite false m_01 (-59)) = true ->
  in_range (SFadd prec emax X E).
Proof.
  intros VX VE VR HX Hl Hu.
  destruct range_numbers as (N1 & N2 & N3 & N4 & N5).
  pose proof (V_nonneg (Zpos m_009) (-59) ltac:(lia)) as P1.
  pose proof (V_nonneg (Zpos m_01) (-59) ltac:(lia)) as P2.
  pose proof (V_nonneg 1 (-54) ltac:(lia)) as P3.
  destruct HX as [->|[Hlo Hhi]].
  - destruct (small_cases E VE Hl Hu) as [[s ->]|(se & me & ee & -> & _)].
    + destruct s; split; reflexivity.
    + cbn [SFadd]. now apply in_range_small.
  - destruct (base_cases X VX Hlo Hhi) as (mx & ex & -> & BX & Hx & Hex).
    destruct (small_cases E VE Hl Hu) as [[s ->]|(se & me & ee & -> & BE & He)].
    + cbn [SFadd]. split; [reflexivity|].
      rewrite SFleb_pos_pos by (exact BX || reflexivity). apply Z.leb_le. lia.
    + pose proof (V_nonneg (Zpos me) ee ltac:(lia)) as P4.
      set (v := V (cond_Zopp false (Zpos mx)) ex + V (cond_Zopp se (Zpos me)) ee).
      assert (- (V (Zpos m_01) (-59) - V (Zpos m_009) (-59)) <= v
              <= V (Zpos m_28) (-54) + V (Zpos m_01) (-59)) as Hv.
      { unfold v. destruct se; cbn [cond_Zopp]; rewrite ?V_opp; lia. }
      destruct (SFadd_finite false se mx me ex ee BX BE Hex)
        as (s & m2 & e2 & Hm2 & Hs & Hb & EQ); [fold v; lia|].
      fold v in Hs, Hb. rewrite EQ in VR |- *.
      exact (in_range_finish s m2 e2 v VR Hm2 Hs Hb Hv).
Qed.

(** *** Products that do not underflow *)

Lemma shifted_lower (m e : Z) : -1074 <= shifted m e.
Proof. unfold shifted, SpecFloat.fexp, SpecFloat.emin, prec, emax. lia. Qed.

(** Rounding an exact mantissa that is at least one unit of the shifted
    exponent does not give a zero. *)
Lemma binary_round_aux_nonzero (s : bool) (m : positive) (e : Z) :
  shifted (Zpos m) e - e <= digits m - 1 ->
  exists p e2,
    binary_round_aux prec emax s (Zpos m) e loc_Exact = finish s (Zpos p) e2.
Proof.
  intros Hsh.
  destruct (binary_round_aux_exact s m e) as (m1 & Hm1 & _ & ->).
  set (e1 := shifted (Zpos m) e) in *.
  assert (e <= e1) as He1 by (unfold e1, shifted; lia).
  destruct (digits_bounds m) as [Hl _].
  assert (1 <= Zpos m / 2 ^ (e1 - e)) as Hq.
  { apply Z.div_le_lower_bound; [apply Z.pow_pos_nonneg; lia|].
    rewrite Z.mul_1_r. apply Z.le_trans with (2 := Hl).
    apply Z.pow_le_mono_r; lia. }
  destruct m1 as [|p1|p1]; try lia.
  set (e2 := shifted (Zpos p1) e1).
  assert (e2 - e1 <= digits p1 - 1) as H2.
  { pose proof (shifted_lower (Zpos m) e). fold e1 in H.
    unfold e2, shifted, SpecFloat.fexp, SpecFloat.emin, prec, emax. cbn [Zdigits2]. lia. }
  assert (e1 <= e2) as He2 by (unfold e2, shifted; lia).
  destruct (digits_bounds p1) as [Hl1 _].
  assert (1 <= Zpos p1 / 2 ^ (e2 - e1)) as Hq2.
  { apply Z.div_le_lower_bound; [apply Z.pow_pos_nonneg; lia|].
    rewrite Z.mul_1_r. apply Z.le_trans with (2 := Hl1).
    apply Z.pow_le_mono_r; lia. }
  destruct (Zpos p1 / 2 ^ (e2 - e1)) as [|p|p] eqn:E; try lia.
  exists p, e2. reflexivity.
Qed.

(** The product of a positive finite number and 12 is positive. *)
Lemma SFmul_12_positive (m : positive) (e : Z) :
  bounded prec emax m e = true ->
  exists p e2,
    SFmul prec emax (S754_finite false m e) (S754_finite false m_12 (-49))
    = finish false (Zpos p) e2.
Proof.
  intros B. destruct (bounded_facts _ _ B) as (He & _).
  cbn [SFmul xorb]. apply binary_round_aux_nonzero.
  destruct (digits_bounds (m * m_12)) as [_ Hu].
  assert (2 ^ 52 < 2 ^ digits (m * m_12)) as Hd.
  { apply Z.le_lt_trans with (2 := Hu). rewrite Pos2Z.inj_mul.
    change (2 ^ 52) with (1 * 4503599627370496). 
    apply Z.mul_le_mono_nonneg; unfold m_12; lia. }
  apply Z.pow_lt_mono_r_iff in Hd; [|lia|lia].
  unfold shifted, SpecFloat.fexp, SpecFloat.emin, prec, emax. cbn [Zdigits2]. lia.
Qed.

End Rounding.

Module FloatRange.

Import Binary64 Rounding.
Local Open Scope float_scope.

Lemma add_in_range (x e : float) :
  x = 0 \/ ((0.009 <=? x) = true /\ (x <=? 0.28) = true) ->
  (-0.01 <=? e) = true -> (e <=? 0.01) = true ->
  (-0.01 <=? x + e) = true /\ (x + e <=? 0.41) = true.
Proof.
  rewrite !FloatAxioms.leb_spec, add_spec. intros Hx Hl Hu.
  apply SFadd_in_range.
  - apply Prim2SF_valid.
  - apply Prim2SF_valid.
  - unfold SF64add in *. rewrite <- add_spec. apply Prim2SF_valid.
  - destruct Hx as [->|Hx]; [left; reflexivity|right; exact Hx].
  - exact Hl.
  - exact Hu.
Qed.

End FloatRange.

Module FloatSign.

Import Binary64 Rounding.
Local Open Scope float_scope.

(** A number above zero is a positive finite number or [+Infinity]. *)
Lemma positive_cases (x : float) :
  (0 <? x) = true ->
  (exists m e, Prim2SF x = S754_finite false m e /\ bounded prec emax m e = true)
  \/ Prim2SF x = S754_infinity false.
Proof.
  rewrite FloatAxioms.ltb_spec. pose proof (Prim2SF_valid x) as VX.
  change (Prim2SF 0) with (S754_zero false).
  destruct (Prim2SF x) as [s|s| |s m e]; intros H.
  - discriminate H.
  - destruct s; [discriminate H|now right].
  - discriminate H.
  - destruct s; [discriminate H|]. left. exists m, e. now split.
Qed.

(** Dividing a positive number by [+0] gives [+Infinity]. *)
Lemma div_zero (x : float) : (0 <? x) = true -> x / 0 = infinity.
Proof.
  intros H. apply Prim2SF_inj. rewrite div_spec.
  change (Prim2SF 0) with (S754_zero false).
  change (Prim2SF infinity) with (S754_infinity false).
  destruct (positive_cases x H) as [(m & e & -> & _)| ->]; reflexivity.
Qed.

(** Dividing a positive number by [-0] gives [-Infinity]. *)
Lemma div_neg_zero (x : float) : (0 <? x) = true -> x / (-0) = neg_infinity.
Proof.
  intros H. apply Prim2SF_inj. rewrite div_spec.
  change (Prim2SF (-0)) with (S754_zero true).
  change (Prim2SF neg_infinity) with (S754_infinity true).
  destruct (positive_cases x H) as [(m & e & -> & _)| ->]; reflexivity.
Qed.

Lemma mul_12_positive (x : float) : (0 <? x) = true -> (0 <? x * 12) = true.
Proof.
  intros H. rewrite FloatAxioms.ltb_spec, mul_spec.
  change (Prim2SF 0) with (S754_zero false).
  change (Prim2SF 12) with (S754_finite false m_12 (-49)).
  destruct (positive_cases x H) as [(m & e & -> & B)| ->]; [|reflexivity].
  unfold SF64mul. destruct (SFmul_12_positive m e B) as (p & e2 & ->).
  cbn [finish]. destruct (e2 <=? emax - prec)%Z; reflexivity.
Qed.

End FloatSign.

(** ** The raw score and the scoring table *)

Module ScoreFacts.

Import FloatOrder Table.

(** [x <= c] for a number [c], once [x] is known to be a number above some
    bound and not above [c]. *)
Lemma le_of_not_gt (b c x : float) :
  (b <? x) = true -> (c <? x) = false -> is_nan c = false -> (x <=? c) = true.
Proof.
  intros Hb Hc Nc. destruct (ltb_not_nan _ _ Hb) as [_ Nx].
  rewrite (leb_or_ltb x c Nx Nc), Hc. reflexivity.
Qed.

Lemma ge_of_not_lt (b c x : float) :
  (x <? b) = true -> (x <? c) = false -> is_nan c = false -> (c <=? x) = true.
Proof.
  intros Hb Hc Nc. destruct (ltb_not_nan _ _ Hb) as [Nx _].
  rewrite (leb_or_ltb c x Nc Nx), Hc. reflexivity.
Qed.

(** What each threshold group of the table selects, as the chain of
    conditions of the source. *)
Lemma credit_rows (d : ApplicantData) :
  map adjustment (applicable d credit_rules) =
  if credit_to_income d >? 3 then [0.08]
  else if credit_to_income d >? 2 then [0.05]
  else if credit_to_income d >? 1 then [0.03]
  else [].
Proof.
  unfold applicable, credit_rules; cbn [filter applies].
  set (x := credit_to_income d).
  destruct (3 <? x) eqn:E3.
  - rewrite (ltb_not_leb _ _ E3).
    rewrite (ltb_trans 2 3 x eq_refl E3).
    rewrite (ltb_not_leb 2 x (ltb_trans 2 3 x eq_refl E3)).
    rewrite !andb_false_r. reflexivity.
  - destruct (2 <? x) eqn:E2.
    + rewrite (le_of_not_gt 2 3 x E2 E3 eq_refl), (ltb_not_leb _ _ E2).
      rewrite !andb_false_r. reflexivity.
    + destruct (1 <? x) eqn:E1; cbn [andb].
      * rewrite (le_of_not_gt 1 2 x E1 E2 eq_refl). reflexivity.
      * reflexivity.
Qed.

Lemma debt_rows (d : ApplicantData) :
  map adjustment (applicable d debt_rules) =
  if debt_to_income d >? 0.5 then [0.06]
  else if debt_to_income d >? 0.3 then [0.03]
  else [].
Proof.
  unfold applicable, debt_rules; cbn [filter applies].
  set (x := debt_to_income d).
  destruct (0.5 <? x) eqn:E5.
  - rewrite (ltb_not_leb _ _ E5), !andb_false_r. reflexivity.
  - destruct (0.3 <? x) eqn:E3; cbn [andb].
    + rewrite (le_of_not_gt 0.3 0.5 x E3 E5 eq_refl). reflexivity.
    + reflexivity.
Qed.

Lemma age_rows (d : ApplicantData) :
  map adjustment (applicable d age_rules) =
  if age d <? 25 then [0.04]
  else if age d >? 60 then [0.02]
  else [].
Proof.
  unfold applicable, age_rules; cbn [filter applies].
  set (x := age d).
  destruct (x <? 25) eqn:E25.
  - rewrite (leb_not_ltb x 60 (ltb_leb _ _ (ltb_trans x 25 60 E25 eq_refl))).
    reflexivity.
  - destruct (60 <? x); reflexivity.
Qed.

Lemma employment_rows (d : ApplicantData) :
  map adjustment (applicable d employment_rules) =
  if employment_years d <? 1 then [0.05]
  else if employment_years d <? 3 then [0.03]
  else if employment_years d >? 10 then [-0.02]
  else [].
Proof.
  unfold applicable, employment_rules; cbn [filter applies].
  set (x := employment_years d).
  destruct (x <? 1) eqn:E1.
  - rewrite (ltb_not_leb _ _ E1), andb_false_r.
    rewrite (leb_not_ltb x 10 (ltb_leb _ _ (ltb_trans x 1 10 E1 eq_refl))).
    reflexivity.
  - destruct (x <? 3) eqn:E3; cbn [andb].
    + rewrite (ge_of_not_lt 3 1 x E3 E1 eq_refl).
      rewrite (leb_not_ltb x 10 (ltb_leb _ _ (ltb_trans x 3 10 E3 eq_refl))).
      reflexivity.
    + destruct (10 <? x); reflexivity.
Qed.

Lemma contract_rows (d : ApplicantData) :
  map adjustment (applicable d contract_rules) =
  if (contract_type d =? "Revolving loans")%string then [0.02] else [].
Proof.
  unfold applicable, contract_rules; cbn [filter applies].
  destruct (contract_type d =? "Revolving loans")%string; reflexivity.
Qed.

Lemma education_rows (d : ApplicantData) :
  map adjustment (applicable d education_rules) =
  if (education d =? "Academic degree")%string
     || (education d =? "Higher education")%string
  then [-0.02]
  else if (education d =? "Lower secondary")%string then [0.02]
  else [].
Proof.
  unfold applicable, education_rules; cbn [filter applies existsb].
  rewrite orb_false_r.
  destruct (education d =? "Academic degree")%string eqn:EA.
  - apply String.eqb_eq in EA. rewrite EA. reflexivity.
  - destruct (education d =? "Higher education")%string eqn:EH.
    + apply String.eqb_eq in EH. rewrite EH. reflexivity.
    + cbn [orb]. destruct (education d =? "Lower secondary")%string; reflexivity.
Qed.

Lemma applicable_rows (d : ApplicantData) :
  map adjustment (applicable d rows) =
  (map adjustment (applicable d credit_rules)
   ++ map adjustment (applicable d debt_rules)
   ++ map adjustment (applicable d age_rules)
   ++ map adjustment (applicable d employment_rules)
   ++ map adjustment (applicable d contract_rules)
   ++ map adjustment (applicable d education_rules))%list.
Proof.
  unfold rows, threshold_groups, applicable.
  cbn [List.concat List.app].
  rewrite !filter_app, !map_app, app_nil_r. reflexivity.
Qed.

(** The ratios the source computes are the derived quantities of the
    specification. *)
Lemma credit_ratio (d : ApplicantData) : creditToIncome d = credit_to_income d.
Proof. reflexivity. Qed.

Lemma debt_ratio (d : ApplicantData) : debtToIncome d = debt_to_income d.
Proof. reflexivity. Qed.

(** The accumulator of the source is the sum of the table. *)
Lemma riskScore_table (d : ApplicantData) : riskScore d = score d.
Proof.
  unfold score. rewrite applicable_rows.
  rewrite credit_rows, debt_rows, age_rows, employment_rows,
    contract_rows, education_rows.
  unfold riskScore. rewrite !credit_ratio, !debt_ratio.
  repeat match goal with
  | |- context [if ?c then _ else _] => destruct c
  end; reflexivity.
Qed.

End ScoreFacts.

(** ** The clamp *)

Module ClampFacts.

Import FloatOrder.

Ltac split_conditions :=
  repeat match goal with
  | |- context [if ?c then _ else _] => destruct c
  end.

(** The clamped score is [+0] or a number between 0.009 and 0.28: the raw
    score is one of finitely many sums of the adjustments. *)
Lemma baseProbability_values (d : ApplicantData) :
  baseProbability d = 0
  \/ ((0.009 <=? baseProbability d) = true /\ (baseProbability d <=? 0.28) = true).
Proof.
  unfold baseProbability, riskScore.
  split_conditions;
    first [left; reflexivity | right; split; reflexivity].
Qed.

Lemma riskScore_number (d : ApplicantData) : JS.isNaN (riskScore d) = false.
Proof.
  unfold riskScore. split_conditions; reflexivity.
Qed.

(** A number equal to zero is [+0] or [-0]. *)
Lemma zero_cases (x : float) : (x =? 0) = true -> x = 0 \/ x = -0.
Proof.
  rewrite FloatAxioms.eqb_spec. change (Prim2SF 0) with (S754_zero false).
  destruct (Prim2SF x) as [[]|[]| |[] m e] eqn:E; intros H;
    try discriminate H.
  - right. apply Prim2SF_inj. rewrite E. reflexivity.
  - left. apply Prim2SF_inj. rewrite E. reflexivity.
Qed.







End ClampFacts.

Section RawScore.

Import Table.

Lemma at_most_one_row (d : ApplicantData) (g : list rule) (l : list JS.number) :
  map adjustment (applicable d g) = l -> (List.length l <= 1)%nat ->
  (List.length (applicable d g) <= 1)%nat.
Proof. intros <-. now rewrite length_map. Qed.

(** C1. For every applicant record with positive income the raw score
    [riskScore] is the sum of the adjustments of the rows of the table that
    apply, the table taking its ratios from the formulas of the
    specification, credit / income and (annuity x 12) / income, which are
    the ratios the source computes, and its comparisons being strict; a
    credit-to-income ratio of exactly 3 selects the +0.05 row only; and in
    each of the four threshold groups at most one row applies. *)
Theorem raw_score_is_table_sum (d : ApplicantData) :
  (0 <? annual_income d) = true ->
  riskScore d = score d
  /\ creditToIncome d = credit_to_income d
  /\ debtToIncome d = debt_to_income d
  /\ (credit_to_income d = 3 ->
      map adjustment (applicable d credit_rules) = [0.05])
  /\ Forall (fun g => (List.length (applicable d g) <= 1)%nat) threshold_groups.
Proof.
  intros _. split; [apply ScoreFacts.riskScore_table|].
  split; [apply ScoreFacts.credit_ratio|]. split; [apply ScoreFacts.debt_ratio|].
  split.
  - intros H. rewrite ScoreFacts.credit_rows, H. reflexivity.
  - unfold threshold_groups. repeat apply Forall_cons; [| | | |apply Forall_nil].
    + eapply at_most_one_row; [apply ScoreFacts.credit_rows|].
      destruct (credit_to_income d >? 3), (credit_to_income d >? 2),
        (credit_to_income d >? 1); cbn; lia.
    + eapply at_most_one_row; [apply ScoreFacts.debt_rows|].
      destruct (debt_to_income d >? 0.5), (debt_to_income d >? 0.3); cbn; lia.
    + eapply at_most_one_row; [apply ScoreFacts.age_rows|].
      destruct (age d <? 25), (age d >? 60); cbn; lia.
    + eapply at_most_one_row; [apply ScoreFacts.employment_rows|].
      destruct (employment_years d <? 1), (employment_years d <? 3),
        (employment_years d >? 10); cbn; lia.
Qed.

Lemma raw_score_is_table_sum_witness :
  (0 <? annual_income ratio_three_applicant) = true
  /\ credit_to_income ratio_three_applicant = 3
  /\ riskScore ratio_three_applicant = score ratio_three_applicant
  /\ map adjustment (applicable ratio_three_applicant credit_rules) = [0.05]
  /\ Forall (fun g => (List.length (applicable ratio_three_applicant g) <= 1)%nat)
       threshold_groups.
Proof.
  destruct (raw_score_is_table_sum ratio_three_applicant eq_refl)
    as (H1 & _ & _ & H2 & H3).
  split; [reflexivity|]. split; [reflexivity|]. split; [exact H1|].
  split; [exact (H2 eq_refl)|exact H3].
Defined.

End RawScore.

(** ** The scenario of the median applicant *)

Section Scenario.

Import Table.

(** C2, as stated, fails: the debt-to-income ratio of the median applicant
    is 27108 * 12 / 147150, above 0.5. *)
Lemma scenario_as_specified_fails : ~ scenario_as_specified median_applicant.
Proof.
  intros (_ & H & _). vm_compute in H. discriminate H.
Qed.

(** C2, amended. For the median applicant the debt-to-income ratio is about
    2.211 and selects the +0.06 row; the adjustments that apply are +0.08
    (credit-to-income, about 4.07), +0.06 and -0.02 (education); the raw
    score is their binary64 sum 0.12000000000000001, about 0.12, and the
    clamp leaves it unchanged. *)
Theorem scenario_median_applicant :
  (2.2105 <=? debtToIncome median_applicant) = true
  /\ (debtToIncome median_applicant <=? 2.2115) = true
  /\ (4.065 <=? creditToIncome median_applicant) = true
  /\ (creditToIncome median_applicant <=? 4.075) = true
  /\ map adjustment (applicable median_applicant rows) = [0.08; 0.06; -0.02]
  /\ riskScore median_applicant = 0 + 0.08 + 0.06 - 0.02
  /\ riskScore median_applicant = 0.12000000000000001
  /\ (0.1199999 <=? riskScore median_applicant) = true
  /\ (riskScore median_applicant <=? 0.1200001) = true
  /\ baseProbability median_applicant = riskScore median_applicant.
Proof. repeat split; vm_compute; reflexivity. Qed.

End Scenario.

(** ** The bucket classifier *)

Section Buckets.

Import FloatOrder.

Variable cut : cutoffs.t.

Lemma assignBucket_cases (p : JS.number) :
  assignBucket cut p =
  if p <=? cutoffs.A cut then "A"%string
  else if p <=? cutoffs.B cut then "B"%string
  else if p <=? cutoffs.C cut then "C"%string
  else "D"%string.
Proof. reflexivity. Qed.

Lemma assignBucket_first (p : JS.number) : assignBucket cut p = first_bucket cut p.
Proof.
  rewrite assignBucket_cases. unfold first_bucket. cbn [find snd].
  destruct (p <=? cutoffs.A cut), (p <=? cutoffs.B cut), (p <=? cutoffs.C cut);
    reflexivity.
Qed.

Lemma assignBucket_label (p : JS.number) :
  In (assignBucket cut p) ["A"; "B"; "C"; "D"]%string.
Proof.
  rewrite assignBucket_cases.
  destruct (p <=? cutoffs.A cut), (p <=? cutoffs.B cut), (p <=? cutoffs.C cut);
    cbn; auto.
Qed.

(** C4, amended. When cutoff A <= cutoff B, as the ordering invariant of the
    cutoffs gives, the classifier returns A iff p <= A, B iff A < p <= B,
    C iff B < p <= C and D otherwise; for every cutoff triple it returns the
    first of A, B, C whose cutoff is >= p, and one of the four labels. *)
Theorem bucket_intervals (p : JS.number) :
  (cutoffs.A cut <=? cutoffs.B cut) = true ->
  intervals_as_specified cut p
  /\ assignBucket cut p = first_bucket cut p
  /\ In (assignBucket cut p) ["A"; "B"; "C"; "D"]%string.
Proof.
  intros HAB. split; [|split; [apply assignBucket_first|apply assignBucket_label]].
  destruct (leb_not_nan _ _ HAB) as [NA NB].
  unfold intervals_as_specified in *. rewrite assignBucket_cases.
  destruct (p <=? cutoffs.A cut) eqn:EA.
  - pose proof (leb_not_ltb _ _ EA) as LA.
    pose proof (leb_not_ltb _ _ (leb_trans _ _ _ EA HAB)) as LB.
    rewrite LA, LB.
    repeat split; intros; try discriminate; try tauto;
      repeat match goal with H : _ /\ _ |- _ => destruct H end; discriminate.
  - destruct (p <=? cutoffs.B cut) eqn:EB.
    + destruct (leb_not_nan _ _ EB) as [Np _].
      pose proof (leb_or_ltb p (cutoffs.A cut) Np NA) as LA.
      rewrite EA in LA. symmetry in LA. apply negb_false_iff in LA.
      pose proof (leb_not_ltb _ _ EB) as LB. rewrite LA, LB.
      repeat split; intros; try discriminate; try tauto;
        repeat match goal with H : _ /\ _ |- _ => destruct H end;
        try discriminate; tauto.
    + destruct (p <=? cutoffs.C cut) eqn:EC.
      * destruct (leb_not_nan _ _ EC) as [Np _].
        pose proof (leb_or_ltb p (cutoffs.B cut) Np NB) as LB.
        rewrite EB in LB. symmetry in LB. apply negb_false_iff in LB. rewrite LB.
        repeat split; intros; try discriminate; try tauto;
          repeat match goal with H : _ /\ _ |- _ => destruct H end;
          try discriminate; tauto.
      * repeat split; intros; try discriminate; try tauto;
          repeat match goal with H : _ /\ _ |- _ => destruct H end;
          try discriminate; tauto.
Qed.

(** C5. For cutoffs with cutoff A < cutoff B < cutoff C and probabilities
    p1 < p2, the bucket assigned to p2 is never safer than the bucket
    assigned to p1, in the order A < B < C < D. *)
Theorem bucket_monotone (p1 p2 : JS.number) :
  (cutoffs.A cut <? cutoffs.B cut) = true ->
  (cutoffs.B cut <? cutoffs.C cut) = true ->
  (p1 <? p2) = true ->
  (risk_rank (assignBucket cut p1) <= risk_rank (assignBucket cut p2))%nat.
Proof.
  intros _ _ H12. rewrite !assignBucket_cases.
  destruct (p2 <=? cutoffs.A cut) eqn:EA.
  - rewrite (ltb_leb _ _ (ltb_leb_trans _ _ _ H12 EA)). cbn. lia.
  - destruct (p2 <=? cutoffs.B cut) eqn:EB.
    + rewrite (ltb_leb _ _ (ltb_leb_trans _ _ _ H12 EB)).
      destruct (p1 <=? cutoffs.A cut); cbn; lia.
    + destruct (p2 <=? cutoffs.C cut) eqn:EC.
      * rewrite (ltb_leb _ _ (ltb_leb_trans _ _ _ H12 EC)).
        destruct (p1 <=? cutoffs.A cut), (p1 <=? cutoffs.B cut); cbn; lia.
      * destruct (p1 <=? cutoffs.A cut), (p1 <=? cutoffs.B cut),
          (p1 <=? cutoffs.C cut); cbn; lia.
Qed.

End Buckets.

(** C4, as stated for every cutoff triple, fails: with cutoffs (0.5, 0.2, 0.6)
    the probability 0.3 lies in the interval of C and is assigned A. *)
Lemma bucket_intervals_unordered_fails :
  ~ intervals_as_specified unordered_cutoffs 0.3.
Proof.
  intros (_ & _ & (_ & H) & _).
  assert (assignBucket unordered_cutoffs 0.3 = "C"%string) as E
    by (apply H; split; reflexivity).
  vm_compute in E. discriminate E.
Qed.

Lemma bucket_intervals_witness :
  (cutoffs.A sample_cutoffs <=? cutoffs.B sample_cutoffs) = true
  /\ intervals_as_specified sample_cutoffs 0.1
  /\ assignBucket sample_cutoffs 0.1 = first_bucket sample_cutoffs 0.1
  /\ In (assignBucket sample_cutoffs 0.1) ["A"; "B"; "C"; "D"]%string.
Proof.
  split; [reflexivity|]. apply (bucket_intervals sample_cutoffs 0.1). reflexivity.
Defined.

Lemma bucket_monotone_witness :
  (cutoffs.A sample_cutoffs <? cutoffs.B sample_cutoffs) = true
  /\ (cutoffs.B sample_cutoffs <? cutoffs.C sample_cutoffs) = true
  /\ (0.1 <? 0.15) = true
  /\ (risk_rank (assignBucket sample_cutoffs 0.1%float)
      <= risk_rank (assignBucket sample_cutoffs 0.15%float))%nat.
Proof.
  repeat (split; [reflexivity|]).
  apply (bucket_monotone sample_cutoffs 0.1 0.15); reflexivity.
Defined.

(** ** The request handler *)

Section HandlerFacts.

Variable cut : cutoffs.t.
Variable random : JS.number.
Variable runtime_message : fault -> string.
Variable StringToNumber : string -> JS.number.
Variable ObjectToString : JSON -> string.

Local Abbreviation handle :=
  (handler cut random runtime_message StringToNumber ObjectToString).
Local Abbreviation run := (process cut random StringToNumber ObjectToString).

Lemma handler_outcome (req : Request) :
  (method req =? "OPTIONS")%string = false ->
  handle req = match run req with
               | inr result => success result
               | inl error => failure (message_of runtime_message error)
               end.
Proof.
  intros H. unfold handler. rewrite H.
  destruct (run req); reflexivity.
Qed.

(** The loop reports the first required field that is not a key. *)
Lemma check_required_object (members : list (string * JSON)) (fields : list string) :
  check_required (JObject members) fields =
  match find (fun f => negb (has_key f members)) fields with
  | Some f => throw (Error ("Missing required field: " ++ f))
  | None => ret tt
  end.
Proof.
  induction fields as [|f rest IH]; [reflexivity|].
  cbn [check_required in_operator bind ret find].
  destruct (has_key f members); cbn [negb]; [exact IH|reflexivity].
Qed.

Lemma find_only_missing (members : list (string * JSON)) (f : string)
    (fields : list string) :
  In f fields ->
  (forall g, In g fields -> has_key g members = true <-> g <> f) ->
  find (fun g => negb (has_key g members)) fields = Some f.
Proof.
  induction fields as [|g rest IH]; intros Hin Hkeys; [destruct Hin|].
  cbn [find]. destruct (string_dec g f) as [->|Hne].
  - destruct (has_key f members) eqn:E; [|reflexivity].
    apply (Hkeys f) in E; [congruence|now left].
  - assert (has_key g members = true) as -> by (apply Hkeys; [now left|exact Hne]).
    cbn [negb]. apply IH.
    + destruct Hin as [->|Hin]; [congruence|exact Hin].
    + intros h Hh. apply Hkeys. now right.
Qed.

Lemma find_none_missing (members : list (string * JSON)) (fields : list string) :
  (forall g, In g fields -> has_key g members = true) ->
  find (fun g => negb (has_key g members)) fields = None.
Proof.
  induction fields as [|g rest IH]; intros Hkeys; [reflexivity|].
  cbn [find]. rewrite (Hkeys g) by now left. cbn [negb].
  apply IH. intros h Hh. apply Hkeys. now right.
Qed.

(** Converting a value to a number returns, or throws the runtime's
    conversion error. *)
Lemma ToNumber_returns (v : option JSON) :
  converts v = true ->
  exists x, ToNumber StringToNumber ObjectToString v = ret x.
Proof.
  destruct v as [[|b|x|s|items|members]|]; cbn [ToNumber converts]; eauto;
    intros H; apply negb_true_iff in H; rewrite H; eauto.
Qed.

Lemma ToNumber_throws (v : option JSON) :
  converts v = false ->
  ToNumber StringToNumber ObjectToString v = throw (RuntimeError ConvertToPrimitive).
Proof.
  destruct v as [[|b|x|s|items|members]|]; cbn [ToNumber converts];
    try discriminate; intros H; apply negb_false_iff in H;
    rewrite H; reflexivity.
Qed.

Lemma as_applicant_outcome (members : list (string * JSON)) :
  (convertible members = true
   /\ exists d, as_applicant StringToNumber ObjectToString (JObject members) = ret d)
  \/ (convertible members = false
      /\ as_applicant StringToNumber ObjectToString (JObject members)
         = throw (RuntimeError ConvertToPrimitive)).
Proof.
  unfold as_applicant, convertible, numericFields. cbn [field forallb].
  repeat match goal with
  | |- context [ToNumber _ _ (member ?k members)] =>
      let E := fresh "E" in
      destruct (converts (member k members)) eqn:E;
      [destruct (ToNumber_returns _ E) as [? ->]; cbn [bind ret andb]
      |rewrite (ToNumber_throws _ E); right; split; reflexivity]
  end.
  left. split; [reflexivity|]. eexists. reflexivity.
Qed.

(** C6. A payload whose data object lacks exactly one of the eight required
    keys is answered with the error naming that key.  For a data object with
    all eight keys, whatever their values, no [Error] of the validation is
    thrown: the request goes on to the scorer, where it is answered with a
    prediction unless the conversion of a numeric field to a number throws,
    which no [null], boolean, number or string value does; where it throws,
    the answer carries the runtime's message, not a missing-field error. *)
Theorem missing_field_detection (m : string) (body : JSON)
    (members : list (string * JSON)) :
  (m =? "OPTIONS")%string = false ->
  get_property body "data" = ret (Some (JObject members)) ->
  (forall f, In f requiredFields ->
     (forall g, In g requiredFields -> has_key g members = true <-> g <> f) ->
     handle {| method := m; json := Some body |}
     = failure ("Missing required field: " ++ f))
  /\ ((forall g, In g requiredFields -> has_key g members = true) ->
      validate body = ret (JObject members)
      /\ (forall message,
            run {| method := m; json := Some body |} <> throw (Error message))
      /\ (forall d,
            as_applicant StringToNumber ObjectToString (JObject members) = ret d ->
            handle {| method := m; json := Some body |}
            = success (predictRisk cut random d))
      /\ (convertible members = true ->
          exists d,
            as_applicant StringToNumber ObjectToString (JObject members) = ret d
            /\ handle {| method := m; json := Some body |}
               = success (predictRisk cut random d))
      /\ (convertible members = false ->
          handle {| method := m; json := Some body |}
          = failure (runtime_message ConvertToPrimitive))).
Proof.
  intros Hm Hdata. split.
  - intros f Hin Hkeys. rewrite handler_outcome by exact Hm.
    unfold process, validate. cbn [json bind ret]. rewrite Hdata.
    cbn [bind ret truthy negb]. rewrite check_required_object.
    rewrite (find_only_missing members f requiredFields Hin Hkeys).
    reflexivity.
  - intros Hkeys.
    assert (validate body = ret (JObject members)) as Hv.
    { unfold validate. rewrite Hdata. cbn [bind ret truthy negb].
      rewrite check_required_object.
      rewrite (find_none_missing members requiredFields Hkeys). reflexivity. }
    assert (forall d,
              as_applicant StringToNumber ObjectToString (JObject members) = ret d ->
              handle {| method := m; json := Some body |}
              = success (predictRisk cut random d)) as Hs.
    { intros d Hd. rewrite handler_outcome by exact Hm.
      unfold process. cbn [json bind ret]. rewrite Hv. cbn [bind ret].
      rewrite Hd. reflexivity. }
    split; [exact Hv|]. split; [|split; [exact Hs|split]].
    + intros message. unfold process. cbn [json bind ret]. rewrite Hv.
      cbn [bind ret].
      destruct (as_applicant_outcome members) as [(_ & d & ->)|(_ & ->)];
        discriminate.
    + intros Hc.
      destruct (as_applicant_outcome members) as [(_ & d & Hd)|(Hn & _)];
        [|congruence].
      exists d. split; [exact Hd|apply Hs; exact Hd].
    + intros Hc.
      destruct (as_applicant_outcome members) as [(Hn & _)|(_ & Hd)];
        [congruence|].
      rewrite handler_outcome by exact Hm.
      unfold process. cbn [json bind ret]. rewrite Hv. cbn [bind ret].
      rewrite Hd. reflexivity.
Qed.

(** C7, amended. Every request other than a preflight ([OPTIONS]) either
    succeeds with status 200 and a body of exactly a probability and a
    bucket, or fails with status 500 and an error body carrying the message
    of the exception; a parsed body other than [null] that has no data
    member fails with "Missing data field in request", and the body [null]
    fails with the message of the runtime's error. *)
Theorem handler_total (req : Request) :
  (method req =? "OPTIONS")%string = false ->
  succeeds_or_fails (handle req)
  /\ (status (handle req) = 200%Z <-> exists result, run req = inr result)
  /\ (forall error, run req = inl error ->
        handle req = failure (message_of runtime_message error))
  /\ (forall parsed, json req = Some parsed ->
        get_property parsed "data" = ret None ->
        handle req = failure "Missing data field in request")
  /\ (json req = Some JNull ->
      handle req = failure (runtime_message ReadPropertyOfNull)).
Proof.
  intros Hm. rewrite (handler_outcome req Hm). repeat split.
  - destruct (run req) as [e|result]; [right|left]; eauto.
  - destruct (run req) as [e|result]; cbn; [discriminate|eauto].
  - intros [result H]. rewrite H. reflexivity.
  - intros error H. rewrite H. reflexivity.
  - intros parsed Hj Hdata. unfold process, validate.
    rewrite Hj. cbn [bind ret]. rewrite Hdata. reflexivity.
  - intros Hj. unfold process. rewrite Hj. reflexivity.
Qed.

(** C10. A data member that is present but bound to a falsy value - [null],
    [0], [false] and the empty string are such values - is answered like an
    absent one, with the message "Missing data field in request". *)
Theorem falsy_data_rejected (m : string) (members : list (string * JSON))
    (v : JSON) :
  (m =? "OPTIONS")%string = false ->
  member "data" members = Some v ->
  truthy (Some v) = false ->
  handle {| method := m; json := Some (JObject members) |}
  = failure "Missing data field in request"
  /\ (forall others, member "data" others = None ->
        handle {| method := m; json := Some (JObject members) |}
        = handle {| method := m; json := Some (JObject others) |})
  /\ Forall (fun falsy => truthy (Some falsy) = false)
       [JNull; JNumber 0; JBool false; JString ""].
Proof.
  intros Hm Hv Hfalsy.
  assert (handle {| method := m; json := Some (JObject members) |}
          = failure "Missing data field in request") as E.
  { rewrite handler_outcome by exact Hm.
    unfold process, validate. cbn [json bind ret get_property]. rewrite Hv.
    rewrite Hfalsy. reflexivity. }
  split; [exact E|]. split.
  - intros others Ho. rewrite E.
    rewrite handler_outcome by exact Hm.
    unfold process, validate. cbn [json bind ret get_property]. rewrite Ho.
    reflexivity.
  - repeat constructor.
Qed.

End HandlerFacts.

(** ** Clamp, then perturbation *)

Section Perturbation.

Import FloatOrder.

Variable cut : cutoffs.t.


End Perturbation.


(** ** Inert inputs *)

(** C9. With the value of [Math.random()] fixed, [predictRisk] returns the
    same probability and bucket for two records that agree on every field
    but [gender]; [annuityToIncome] only appears in the logged features. *)
Theorem gender_is_inert (cut : cutoffs.t) (random : JS.number)
    (d1 d2 : ApplicantData) :
  same_but_gender d1 d2 ->
  predictRisk cut random d1 = predictRisk cut random d2.
Proof.
  destruct d1, d2. unfold same_but_gender. cbn.
  intros (-> & -> & -> & -> & -> & -> & ->). reflexivity.
Qed.

Lemma gender_is_inert_witness :
  same_but_gender median_applicant median_applicant_male
  /\ predictRisk sample_cutoffs 0.5 median_applicant
     = predictRisk sample_cutoffs 0.5 median_applicant_male.
Proof.
  assert (same_but_gender median_applicant median_applicant_male) as H
    by (repeat split; reflexivity).
  split; [exact H|].
  apply (gender_is_inert sample_cutoffs 0.5 _ _ H).
Defined.

(** ** Zero income *)

Section ZeroIncome.

Import FloatOrder.

Variable cut : cutoffs.t.
Variable random : JS.number.
Variable runtime_message : fault -> string.
Variable StringToNumber : string -> JS.number.
Variable ObjectToString : JSON -> string.

Lemma as_applicant_payload (d : ApplicantData) :
  as_applicant StringToNumber ObjectToString (payload d) = ret d.
Proof. destruct d. reflexivity. Qed.

(** A well-typed record sent under the [data] member is scored as it is. *)
Lemma handler_payload (m : string) (d : ApplicantData) :
  (m =? "OPTIONS")%string = false ->
  handler cut random runtime_message StringToNumber ObjectToString
    {| method := m; json := Some (JObject [("data"%string, payload d)]) |}
  = success (predictRisk cut random d).
Proof.
  intros Hm. unfold handler. cbn [method]. rewrite Hm.
  assert (process cut random StringToNumber ObjectToString
            {| method := m; json := Some (JObject [("data"%string, payload d)]) |}
          = ret (predictRisk cut random d)) as ->; [|reflexivity].
  unfold process. cbn [json bind ret].
  assert (validate (JObject [("data"%string, payload d)]) = ret (payload d)) as ->
    by reflexivity.
  cbn [bind ret]. rewrite as_applicant_payload. reflexivity.
Qed.

(** C8, amended. With an income of zero and positive credit and annuity
    the request is answered with a prediction, and both ratios are infinite,
    not NaN.  For an income of [+0] they are [+Infinity], so the
    comparisons [creditToIncome > 3] and [debtToIncome > 0.5] hold and the
    rows +0.08 and +0.06 apply; for an income of [-0] they are [-Infinity],
    so every comparison of a ratio fails and no row of the two ratio groups
    applies.  The raw score, the clamped score and, for a perturbation
    between -0.01 and 0.01, the returned probability are numbers, not
    NaN. *)
Theorem zero_income_behaviour (m : string) (e : JS.number) (d : ApplicantData) :
  (m =? "OPTIONS")%string = false ->
  (annual_income d =? 0) = true ->
  (0 <? credit_amount d) = true -> (0 <? annuity d) = true ->
  (-0.01 <=? e) = true -> (e <=? 0.01) = true ->
  handler cut random runtime_message StringToNumber ObjectToString
    {| method := m; json := Some (JObject [("data"%string, payload d)]) |}
  = success (predictRisk cut random d)
  /\ (JS.is_neg_zero (annual_income d) = false ->
      creditToIncome d = infinity /\ debtToIncome d = infinity
      /\ (creditToIncome d >? 3) = true /\ (debtToIncome d >? 0.5) = true
      /\ map Table.adjustment (Table.applicable d Table.credit_rules) = [0.08]
      /\ map Table.adjustment (Table.applicable d Table.debt_rules) = [0.06])
  /\ (JS.is_neg_zero (annual_income d) = true ->
      creditToIncome d = neg_infinity /\ debtToIncome d = neg_infinity
      /\ (creditToIncome d >? 3) = false /\ (creditToIncome d >? 2) = false
      /\ (creditToIncome d >? 1) = false
      /\ (debtToIncome d >? 0.5) = false /\ (debtToIncome d >? 0.3) = false
      /\ map Table.adjustment (Table.applicable d Table.credit_rules) = []
      /\ map Table.adjustment (Table.applicable d Table.debt_rules) = [])
  /\ JS.isNaN (creditToIncome d) = false
  /\ JS.isNaN (debtToIncome d) = false
  /\ JS.isNaN (riskScore d) = false
  /\ JS.isNaN (baseProbability d) = false
  /\ JS.isNaN (probability (predictRiskWith cut e d)) = false.
Proof.
  intros Hm Hincome Hcredit Hannuity Hl Hu.
  pose proof (FloatSign.mul_12_positive _ Hannuity) as Hdebt.
  assert ((JS.is_neg_zero (annual_income d) = false
           /\ creditToIncome d = infinity /\ debtToIncome d = infinity)
          \/ (JS.is_neg_zero (annual_income d) = true
              /\ creditToIncome d = neg_infinity
              /\ debtToIncome d = neg_infinity)) as Hcases.
  { unfold creditToIncome, debtToIncome.
    destruct (ClampFacts.zero_cases _ Hincome) as [-> | ->]; [left|right];
      (split; [reflexivity|]).
    - split; apply FloatSign.div_zero; assumption.
    - split; apply FloatSign.div_neg_zero; assumption. }
  split; [now apply handler_payload|].
  split; [|split].
  - intros Hpos. destruct Hcases as [(_ & Hc & Hd)|(Hneg & _)]; [|congruence].
    split; [exact Hc|]. split; [exact Hd|].
    split; [rewrite Hc; reflexivity|]. split; [rewrite Hd; reflexivity|].
    assert (Table.credit_to_income d = infinity) as Tc by exact Hc.
    assert (Table.debt_to_income d = infinity) as Td by exact Hd.
    rewrite ScoreFacts.credit_rows, ScoreFacts.debt_rows, Tc, Td.
    split; reflexivity.
  - intros Hneg. destruct Hcases as [(Hpos & _)|(_ & Hc & Hd)]; [congruence|].
    split; [exact Hc|]. split; [exact Hd|].
    assert (Table.credit_to_income d = neg_infinity) as Tc by exact Hc.
    assert (Table.debt_to_income d = neg_infinity) as Td by exact Hd.
    rewrite ScoreFacts.credit_rows, ScoreFacts.debt_rows, Tc, Td, Hc, Hd.
    repeat split; reflexivity.
  - split; [destruct Hcases as [(_ & -> & _)|(_ & -> & _)]; reflexivity|].
    split; [destruct Hcases as [(_ & _ & ->)|(_ & _ & ->)]; reflexivity|].
    split; [apply ClampFacts.riskScore_number|].
    destruct (FloatRange.add_in_range _ e (ClampFacts.baseProbability_values d) Hl Hu)
      as [Hlow _].
    split.
    + destruct (ClampFacts.baseProbability_values d) as [->|[H _]]; [reflexivity|].
      apply (leb_not_nan _ _ H).
    + apply (leb_not_nan _ _ Hlow).
Qed.

End ZeroIncome.

(** C8, as stated, fails: with an income of 0, a credit of 50000 and an
    annuity of 2000 the ratios are [+Infinity], which is above every
    threshold, and the probability is a number. *)
Lemma zero_income_as_specified_fails :
  ~ zero_income_as_specified sample_cutoffs 0 zero_income_applicant.
Proof.
  intros (H & _). vm_compute in H. discriminate H.
Qed.

Lemma zero_income_behaviour_witness :
  (annual_income zero_income_applicant =? 0) = true
  /\ (0 <? credit_amount zero_income_applicant) = true
  /\ (0 <? annuity zero_income_applicant) = true
  /\ creditToIncome zero_income_applicant = infinity
  /\ debtToIncome zero_income_applicant = infinity
  /\ JS.isNaN (probability (predictRiskWith sample_cutoffs 0 zero_income_applicant))
     = false
  /\ (annual_income negative_zero_income_applicant =? 0) = true
  /\ creditToIncome negative_zero_income_applicant = neg_infinity
  /\ debtToIncome negative_zero_income_applicant = neg_infinity.
Proof.
  split; [reflexivity|]. split; [reflexivity|]. split; [reflexivity|].
  destruct (zero_income_behaviour sample_cutoffs 0.5 no_runtime_message no_number
              no_string "POST" 0 zero_income_applicant
              eq_refl eq_refl eq_refl eq_refl eq_refl eq_refl)
    as (_ & Hpos & _ & _ & _ & _ & _ & Hp).
  destruct (Hpos eq_refl) as (Hc & Hd & _).
  split; [exact Hc|]. split; [exact Hd|]. split; [exact Hp|].
  split; [reflexivity|].
  destruct (zero_income_behaviour sample_cutoffs 0.5 no_runtime_message no_number
              no_string "POST" 0 negative_zero_income_applicant
              eq_refl eq_refl eq_refl eq_refl eq_refl eq_refl)
    as (_ & _ & Hneg & _).
  destruct (Hneg eq_refl) as (Hc' & Hd' & _).
  split; [exact Hc'|exact Hd'].
Defined.

(** ** Concrete requests *)

(** C7, as stated for every request, fails: a preflight is answered with
    status 200 and no body, neither a prediction nor an error. *)
Lemma preflight_is_neither : ~ succeeds_or_fails (serve preflight).
Proof.
  intros [[result H]|[message H]]; discriminate H.
Qed.

Lemma handler_total_witness :
  succeeds_or_fails (serve post_without_data)
  /\ serve post_without_data = failure "Missing data field in request".
Proof.
  destruct (handler_total sample_cutoffs 0.5 no_runtime_message no_number
              no_string post_without_data eq_refl) as (H1 & _ & _ & H2 & _).
  split; [exact H1|].
  apply (H2 (JObject [("payload"%string, JNull)])); reflexivity.
Defined.

Lemma missing_field_detection_witness :
  serve {| method := "POST";
           json := Some (JObject [("data"%string, JObject members_without_age)]) |}
  = failure "Missing required field: age"
  /\ serve {| method := "POST";
              json := Some (JObject [("data"%string, JObject members_all_null)]) |}
     = success (predictRisk sample_cutoffs 0.5 null_applicant)
  /\ serve {| method := "POST";
              json := Some (JObject [("data"%string, JObject members_unconvertible)]) |}
     = failure (no_runtime_message ConvertToPrimitive).
Proof.
  split.
  - apply (proj1 (missing_field_detection sample_cutoffs 0.5 no_runtime_message
                    no_number no_string "POST"
                    (JObject [("data"%string, JObject members_without_age)])
                    members_without_age eq_refl eq_refl) "age"%string).
    + cbn. tauto.
    + intros g Hg. cbn in Hg.
      repeat (destruct Hg as [<-|Hg]; [split; [discriminate|reflexivity || congruence]|]).
      destruct Hg.
  - assert (forall g, In g requiredFields -> has_key g members_all_null = true)
      as Hkeys.
    { intros g Hg. cbn in Hg.
      repeat (destruct Hg as [<-|Hg]; [reflexivity|]). destruct Hg. }
    destruct (proj2 (missing_field_detection sample_cutoffs 0.5 no_runtime_message
                       no_number no_string "POST"
                       (JObject [("data"%string, JObject members_all_null)])
                       members_all_null eq_refl eq_refl) Hkeys)
      as (_ & _ & Hs & _).
    split; [apply Hs; reflexivity|].
    assert (forall g, In g requiredFields -> has_key g members_unconvertible = true)
      as Hkeys'.
    { intros g Hg. cbn in Hg.
      repeat (destruct Hg as [<-|Hg]; [reflexivity|]). destruct Hg. }
    destruct (proj2 (missing_field_detection sample_cutoffs 0.5 no_runtime_message
                       no_number no_string "POST"
                       (JObject [("data"%string, JObject members_unconvertible)])
                       members_unconvertible eq_refl eq_refl) Hkeys')
      as (_ & _ & _ & _ & Hf).
    apply Hf. reflexivity.
Defined.

Lemma falsy_data_rejected_witness :
  member "data" [("data"%string, JNumber 0)] = Some (JNumber 0)
  /\ truthy (Some (JNumber 0)) = false
  /\ serve {| method := "POST"; json := Some (JObject [("data"%string, JNumber 0)]) |}
     = failure "Missing data field in request".
Proof.
  split; [reflexivity|]. split; [reflexivity|].
  apply (falsy_data_rejected sample_cutoffs 0.5 no_runtime_message no_number
           no_string "POST" [("data"%string, JNumber 0)] (JNumber 0)
           eq_refl eq_refl eq_refl).
Defined.

(** * Further properties of the code *)

(** ** Roundings that stay below a bound *)

Module RoundingBelow.
Import Binary64 Rounding.
Local Open Scope Z_scope.

(** *** Signs *)

Lemma shr_fexp_m_nonneg (m e : Z) (l : location) :
  0 <= m -> 0 <= shr_m (fst (shr_fexp prec emax m e l)).
Proof.
  intros Hm. unfold shr_fexp, shr.
  assert (shr_m (shr_record_of_loc m l) = m) as E by (destruct l as [|[]]; reflexivity).
  destruct (fexp (Zdigits2 m + e) - e) as [|n|n]; cbn [fst]; rewrite ?E; try exact Hm.
  rewrite iter_shr_m by (rewrite E; exact Hm). rewrite E.
  apply Z_div_nonneg_nonneg; lia.
Qed.

(** A rounding of a non-negative mantissa is a zero, a finite number or an
    infinity of the given sign, whatever the location. *)
Lemma binary_round_aux_sign (s : bool) (m e : Z) (l : location) :
  0 <= m ->
  exists m2 e2, 0 <= m2 /\ binary_round_aux prec emax s m e l = finish s m2 e2.
Proof.
  intros Hm. unfold binary_round_aux.
  pose proof (shr_fexp_m_nonneg m e l Hm) as H1.
  destruct (shr_fexp prec emax m e l) as [r e1]. cbn [fst] in H1.
  set (m1 := round_nearest_even (shr_m r) (loc_of_shr_record r)).
  assert (0 <= m1) as Hm1
    by (pose proof (round_nearest_even_bounds (shr_m r) (loc_of_shr_record r)); unfold m1; lia).
  pose proof (shr_fexp_m_nonneg m1 e1 loc_Exact Hm1) as H2.
  destruct (shr_fexp prec emax m1 e1 loc_Exact) as [r2 e2]. cbn [fst] in H2.
  exists (shr_m r2), e2. split; [exact H2|reflexivity].
Qed.

Lemma SFdiv_core_nonneg (m1 m2 : positive) (e1 e2 : Z) :
  0 <= fst (fst (SFdiv_core_binary prec emax (Zpos m1) e1 (Zpos m2) e2)).
Proof.
  unfold SFdiv_core_binary.
  set (e' := Z.min _ _). set (s := e1 - e2 - e').
  set (m' := match s with Zpos _ => Z.shiftl (Zpos m1) s | Z0 => Zpos m1 | Zneg _ => 0 end).
  assert (0 <= m') as Hm'.
  { unfold m'. destruct s; try lia. apply Z.shiftl_nonneg. lia. }
  pose proof (Z_div_mod m' (Zpos m2) ltac:(lia)) as H.
  destruct (Z.div_eucl m' (Zpos m2)) as [q r]. cbn [fst].
  destruct H as [H1 H2]. nia.
Qed.

(** The quotient of two finite numbers has the sign of the operands'
    signs combined. *)
Lemma SFdiv_sign (sx sy : bool) (mx my : positive) (ex ey : Z) :
  exists m2 e2,
    0 <= m2
    /\ SFdiv prec emax (S754_finite sx mx ex) (S754_finite sy my ey)
       = finish (xorb sx sy) m2 e2.
Proof.
  cbn [SFdiv]. pose proof (SFdiv_core_nonneg mx my ex ey) as H.
  destruct (SFdiv_core_binary prec emax (Zpos mx) ex (Zpos my) ey) as [[mz ez] lz].
  cbn [fst] in H. now apply binary_round_aux_sign.
Qed.

(** *** Rounding below a representable bound *)

Lemma fexp_mono (a b : Z) : a <= b -> fexp a <= fexp b.
Proof. unfold SpecFloat.fexp, SpecFloat.emin, prec, emax. lia. Qed.

Lemma fexp_canonical (m : positive) (e : Z) :
  bounded prec emax m e = true -> fexp (digits m + e) = e.
Proof.
  unfold bounded, canonical_mantissa. rewrite andb_true_iff, Z.eqb_eq. tauto.
Qed.

(** An exact value strictly below a canonical number [m0 * 2^e0] is rounded
    to at most that number.  Values are compared in units of [2^e], the
    exponent of the exact mantissa. *)
Lemma binary_round_aux_below (s : bool) (m m0 : positive) (e e0 : Z) :
  bounded prec emax m0 e0 = true -> e <= e0 ->
  Zpos m < Zpos m0 * 2 ^ (e0 - e) ->
  exists m2 e2,
    0 <= m2 /\ e <= e2
    /\ m2 * 2 ^ (e2 - e) <= Zpos m0 * 2 ^ (e0 - e)
    /\ binary_round_aux prec emax s (Zpos m) e loc_Exact = finish s m2 e2.
Proof.
  intros B0 He Hlt.
  destruct (binary_round_aux_exact s m e) as (m1 & Hm1 & _ & ->).
  set (e1 := shifted (Zpos m) e) in *.
  assert (e <= e1) as He1 by (unfold e1, shifted; lia).
  assert (e1 <= e0) as He10.
  { unfold e1, shifted. cbn [Zdigits2]. apply Z.max_lub; [exact He|].
    rewrite <- (fexp_canonical m0 e0 B0). apply fexp_mono.
    destruct (digits_bounds m) as [Hl _]. destruct (digits_bounds m0) as [_ Hu].
    destruct (Z_lt_le_dec (digits m0 + e0) (digits m + e)) as [Hc|]; [exfalso|lia].
    assert (Zpos m0 * 2 ^ (e0 - e) < 2 ^ (digits m0 + (e0 - e))) as H1.
    { rewrite Z.pow_add_r by lia. apply Z.mul_lt_mono_pos_r; [|exact Hu].
      apply Z.pow_pos_nonneg; lia. }
    assert (2 ^ (digits m0 + (e0 - e)) <= 2 ^ (digits m - 1)) as H2
      by (apply Z.pow_le_mono_r; lia).
    lia. }
  set (e2 := shifted m1 e1).
  assert (e1 <= e2) as He2 by (unfold e2, shifted; lia).
  set (P := 2 ^ (e1 - e)) in *. set (A := Zpos m0 * 2 ^ (e0 - e1)).
  assert (0 < P) as HP by (apply Z.pow_pos_nonneg; lia).
  assert (Zpos m0 * 2 ^ (e0 - e) = A * P) as HAP.
  { unfold A, P. rewrite <- Z.mul_assoc, <- Z.pow_add_r by lia.
    f_equal. f_equal. lia. }
  assert (Zpos m / P < A) as Hq
    by (apply Z.div_lt_upper_bound; [exact HP|rewrite Z.mul_comm, <- HAP; exact Hlt]).
  assert (0 <= Zpos m / P) as Hq0 by (apply Z_div_nonneg_nonneg; lia).
  exists (m1 / 2 ^ (e2 - e1)), e2. repeat split.
  - apply Z_div_nonneg_nonneg; [lia|apply Z.pow_nonneg; lia].
  - lia.
  - rewrite HAP.
    replace (e2 - e) with ((e2 - e1) + (e1 - e)) by lia.
    rewrite Z.pow_add_r, Z.mul_assoc by lia. fold P.
    apply Z.mul_le_mono_nonneg_r; [lia|].
    apply Z.le_trans with m1; [|lia].
    rewrite Z.mul_comm. apply Z.mul_div_le. apply Z.pow_pos_nonneg; lia.
Qed.

(** From units of [2^e] to the scaled values. *)
Lemma V_le_of_units (a b ea eb e : Z) :
  e <= ea -> e <= eb -> -1074 <= ea -> -1074 <= eb ->
  a * 2 ^ (ea - e) <= b * 2 ^ (eb - e) -> V a ea <= V b eb.
Proof.
  intros Ha Hb Ka Kb H. unfold V.
  destruct (Z_lt_le_dec (e + 1074) 0) as [Hn|Hp].
  - set (k := - (e + 1074)).
    replace (ea - e) with ((ea + 1074) + k) in H by (unfold k; lia).
    replace (eb - e) with ((eb + 1074) + k) in H by (unfold k; lia).
    rewrite (Z.pow_add_r 2 (ea + 1074) k), (Z.pow_add_r 2 (eb + 1074) k), !Z.mul_assoc
      in H by (unfold k; lia).
    apply Z.mul_le_mono_pos_r in H; [exact H|apply Z.pow_pos_nonneg; unfold k; lia].
  - replace (ea + 1074) with ((ea - e) + (e + 1074)) by lia.
    replace (eb + 1074) with ((eb - e) + (e + 1074)) by lia.
    rewrite (Z.pow_add_r 2 (ea - e)), (Z.pow_add_r 2 (eb - e)), !Z.mul_assoc by lia.
    apply Z.mul_le_mono_nonneg_r; [apply Z.pow_nonneg; lia|exact H].
Qed.

Lemma V_lt_units (a b ea eb e : Z) :
  e <= ea -> e <= eb -> -1074 <= e ->
  V a ea < V b eb -> a * 2 ^ (ea - e) < b * 2 ^ (eb - e).
Proof.
  intros Ha Hb Ke H. unfold V in H.
  replace (ea + 1074) with ((ea - e) + (e + 1074)) in H by lia.
  replace (eb + 1074) with ((eb - e) + (e + 1074)) in H by lia.
  rewrite (Z.pow_add_r 2 (ea - e)), (Z.pow_add_r 2 (eb - e)), !Z.mul_assoc in H by lia.
  apply Z.mul_lt_mono_pos_r in H; [exact H|apply Z.pow_pos_nonneg; lia].
Qed.

(** The outcome of a rounding that stays below a canonical number. *)
Lemma finish_below (s : bool) (m2 e2 e : Z) (m0 : positive) (e0 : Z) :
  bounded prec emax m0 e0 = true -> e0 <= 0 ->
  0 <= m2 -> e <= e2 -> e <= e0 ->
  m2 * 2 ^ (e2 - e) <= Zpos m0 * 2 ^ (e0 - e) ->
  valid_binary (finish s m2 e2) = true ->
  finish s m2 e2 = S754_zero s
  \/ exists p, finish s m2 e2 = S754_finite s p e2
               /\ bounded prec emax p e2 = true
               /\ V (Zpos p) e2 <= V (Zpos m0) e0.
Proof.
  intros B0 Hsmall Hm2 He2 He0 Hle Hvalid.
  destruct (bounded_facts _ _ B0) as (Hb0 & Hd0 & _).
  destruct (finish_cases s m2 e2 Hm2) as [E|[(p & -> & Hle2 & E)|(Hp & Hgt & E)]].
  - now left.
  - right. exists p. rewrite E in Hvalid |- *. cbn [SpecFloat.valid_binary] in Hvalid.
    destruct (bounded_facts _ _ Hvalid) as (Hb & _).
    split; [reflexivity|]. split; [exact Hvalid|].
    apply (V_le_of_units _ _ _ _ e); lia.
  - exfalso. unfold emax, prec in Hgt.
    destruct (digits_bounds m0) as [_ Hu].
    assert (Zpos m0 < 2 ^ 53) as Hu'
      by (apply Z.lt_le_trans with (1 := Hu); apply Z.pow_le_mono_r; lia).
    assert (2 ^ (e2 - e) <= m2 * 2 ^ (e2 - e)) as H1.
    { rewrite <- (Z.mul_1_l (2 ^ (e2 - e))) at 1.
      apply Z.mul_le_mono_nonneg_r; [apply Z.pow_nonneg|]; lia. }
    assert (Zpos m0 * 2 ^ (e0 - e) < 2 ^ (53 + (e0 - e))) as H2.
    { rewrite Z.pow_add_r by lia. apply Z.mul_lt_mono_pos_r; [|exact Hu'].
      apply Z.pow_pos_nonneg; lia. }
    assert (2 ^ (53 + (e0 - e)) <= 2 ^ (e2 - e)) as H3
      by (apply Z.pow_le_mono_r; lia).
    lia.
Qed.

Lemma binary_round_below (s : bool) (m m0 : positive) (e e0 : Z) :
  bounded prec emax m0 e0 = true -> e0 <= 0 -> -1074 <= e <= e0 ->
  V (Zpos m) e < V (Zpos m0) e0 ->
  valid_binary (binary_round prec emax s m e) = true ->
  binary_round prec emax s m e = S754_zero s
  \/ exists p e2, binary_round prec emax s m e = S754_finite s p e2
                  /\ bounded prec emax p e2 = true
                  /\ V (Zpos p) e2 <= V (Zpos m0) e0.
Proof.
  intros B0 Hsmall He Hlt. unfold binary_round.
  set (e' := fexp (digits m + e)).
  assert (-1074 <= e') as He'
    by (unfold e', SpecFloat.fexp, SpecFloat.emin, prec, emax; lia).
  destruct (shl_align_value m e e' He') as [Hs Hz].
  destruct (shl_align m e e') as [mz ez]. cbn [fst snd] in Hs, Hz. subst ez.
  rewrite <- Hz in Hlt.
  assert (Zpos mz * 2 ^ (Z.min e e' - Z.min e e') < Zpos m0 * 2 ^ (e0 - Z.min e e')) as Hu
    by (apply V_lt_units; try lia; exact Hlt).
  rewrite Z.sub_diag, Z.mul_1_r in Hu.
  destruct (binary_round_aux_below s mz m0 (Z.min e e') e0 B0 ltac:(lia) Hu)
    as (m2 & e2 & Hm2 & He2 & Hle & ->).
  intros Hvalid.
  destruct (finish_below s m2 e2 (Z.min e e') m0 e0 B0 Hsmall Hm2 He2 ltac:(lia) Hle Hvalid)
    as [E|(p & E & Bp & Hp)]; [now left|right; eauto].
Qed.

(** Two canonical numbers of the same value are the same. *)
Lemma canonical_unique (m1 m2 : positive) (e1 e2 : Z) :
  bounded prec emax m1 e1 = true -> bounded prec emax m2 e2 = true ->
  V (Zpos m1) e1 = V (Zpos m2) e2 -> m1 = m2 /\ e1 = e2.
Proof.
  intros B1 B2 H.
  assert (e1 = e2) as ->.
  { destruct (Z.lt_trichotomy e1 e2) as [Hlt|[Heq|Hgt]]; [exfalso|exact Heq|exfalso].
    - pose proof (V_lt_of_exponent _ _ _ _ B1 B2 Hlt). lia.
    - pose proof (V_lt_of_exponent _ _ _ _ B2 B1 Hgt). lia. }
  split; [|reflexivity]. unfold V in H.
  destruct (bounded_facts _ _ B2) as (He & _).
  apply Z.mul_cancel_r in H; [congruence|].
  apply Z.pow_nonzero; lia.
Qed.

End RoundingBelow.

(** ** The perturbation term *)

Module PerturbationRounding.
Import Binary64 Rounding RoundingBelow.
Local Open Scope Z_scope.

Lemma below_one (m : positive) (e : Z) :
  bounded prec emax m e = true ->
  V (Zpos m) e < V 4503599627370496 (-52) ->
  e <= -53 /\ Zpos m < 2 ^ (- e).
Proof.
  intros B H.
  assert (bounded prec emax 4503599627370496 (-52) = true) as B1 by reflexivity.
  assert (e <= -52) as He by (apply (exponent_le _ _ _ _ B B1), Z.lt_le_incl; exact H).
  destruct (bounded_facts _ _ B) as (Hb & _).
  pose proof (V_lt_units _ _ _ _ e (Z.le_refl e) He (proj1 Hb) H) as Hu.
  rewrite Z.sub_diag, Z.mul_1_r in Hu.
  assert (4503599627370496 * 2 ^ (-52 - e) = 2 ^ (- e)) as E.
  { change 4503599627370496 with (2 ^ 52). rewrite <- Z.pow_add_r by lia.
    f_equal. lia. }
  rewrite E in Hu. split; [|exact Hu].
  destruct (Z.eq_dec e (-52)) as [->|]; [|lia]. exfalso.
  destruct (bounded_facts _ _ B) as (_ & _ & Hd). specialize (Hd ltac:(lia)).
  destruct (digits_bounds m) as [Hl _]. rewrite Hd in Hl.
  change (2 ^ (- -52)) with (2 ^ (53 - 1)) in Hu. lia.
Qed.

(** A number in [[0, 1)] times 0.02 is a zero or a positive number that is
    at most 0.02. *)
Lemma SFmul_002 (m : positive) (e : Z) :
  bounded prec emax m e = true ->
  V (Zpos m) e < V 4503599627370496 (-52) ->
  let R := SFmul prec emax (S754_finite false m e) (S754_finite false m_01 (-58)) in
  valid_binary R = true ->
  R = S754_zero false
  \/ exists p e2, R = S754_finite false p e2
                  /\ bounded prec emax p e2 = true
                  /\ V (Zpos p) e2 <= V (Zpos m_01) (-58).
Proof.
  intros B H R. subst R. cbn [SFmul xorb].
  destruct (below_one m e B H) as [He Hm].
  assert (bounded prec emax m_01 (-58) = true) as B0 by reflexivity.
  assert (Zpos (m * m_01) < Zpos m_01 * 2 ^ (-58 - (e + -58))) as Hu.
  { replace (-58 - (e + -58)) with (- e) by lia. rewrite Pos2Z.inj_mul.
    rewrite (Z.mul_comm (Zpos m)). apply Z.mul_lt_mono_pos_l; [reflexivity|exact Hm]. }
  destruct (binary_round_aux_below false (m * m_01) m_01 (e + -58) (-58) B0 ltac:(lia) Hu)
    as (m2 & e2 & Hm2 & He2 & Hle & ->).
  intros Hvalid.
  destruct (finish_below false m2 e2 (e + -58) m_01 (-58) B0 ltac:(lia) Hm2 He2 ltac:(lia) Hle Hvalid)
    as [E|(p & E & Bp & Hp)]; [now left|right; eauto].
Qed.

(** A positive number that is at most 0.02, minus 0.01, lies between -0.01
    and 0.01. *)
Lemma SFsub_001 (m : positive) (e : Z) :
  bounded prec emax m e = true ->
  V (Zpos m) e <= V (Zpos m_01) (-58) ->
  let R := SFsub prec emax (S754_finite false m e) (S754_finite false m_01 (-59)) in
  valid_binary R = true ->
  SFleb (S754_finite true m_01 (-59)) R = true
  /\ SFleb R (S754_finite false m_01 (-59)) = true.
Proof.
  intros B H R. subst R.
  assert (bounded prec emax m_01 (-58) = true) as B2 by reflexivity.
  assert (bounded prec emax m_01 (-59) = true) as B1 by reflexivity.
  destruct (Z.eq_dec (V (Zpos m) e) (V (Zpos m_01) (-58))) as [Heq|Hne].
  { destruct (canonical_unique _ _ _ _ B B2 Heq) as [-> ->]. intros _.
    split; vm_compute; reflexivity. }
  assert (V (Zpos m) e < V (Zpos m_01) (-58)) as Hlt by lia. clear H Hne.
  cbn [SFsub cond_Zopp].
  destruct (bounded_facts _ _ B) as (Hb & _).
  set (ez := Z.min e (-59)).
  destruct (shl_align_value m e ez ltac:(lia)) as [_ Vx].
  destruct (shl_align_value m_01 (-59) ez ltac:(lia)) as [_ Vy].
  replace (Z.min e ez) with ez in Vx by lia.
  replace (Z.min (-59) ez) with ez in Vy by lia.
  set (ax := Zpos (fst (shl_align m e ez))) in *.
  set (ay := Zpos (fst (shl_align m_01 (-59) ez))) in *.
  assert (V (ax - ay) ez = V (Zpos m) e - V (Zpos m_01) (-59)) as Hdiff.
  { unfold Z.sub. rewrite V_add, V_opp, Vx, Vy. reflexivity. }
  assert (V (Zpos m_01) (-58) = 2 * V (Zpos m_01) (-59)) as Hdouble by reflexivity.
  assert (0 < V (Zpos m) e) as Hpos
    by (unfold V; apply Z.mul_pos_pos; [lia|apply Z.pow_pos_nonneg; lia]).
  destruct (ax - ay) as [|d|d] eqn:ED; cbn [binary_normalize].
  - intros _. split; reflexivity.
  - assert (V (Zpos d) ez < V (Zpos m_01) (-59)) as Hd by lia.
    intros Hvalid.
    destruct (binary_round_below false d m_01 ez (-59) B1 ltac:(lia) ltac:(lia) Hd Hvalid)
      as [->|(p & e2 & -> & Bp & Hp)]; [split; reflexivity|].
    split; [reflexivity|].
    rewrite (SFleb_pos_pos _ _ _ _ Bp B1). apply Z.leb_le. exact Hp.
  - assert (V (Zpos d) ez = - V (Zneg d) ez) as Hopp
      by (rewrite <- V_opp; reflexivity).
    assert (V (Zpos d) ez < V (Zpos m_01) (-59)) as Hd by lia.
    intros Hvalid.
    destruct (binary_round_below true d m_01 ez (-59) B1 ltac:(lia) ltac:(lia) Hd Hvalid)
      as [->|(p & e2 & -> & Bp & Hp)]; [split; reflexivity|].
    split; [|reflexivity].
    rewrite (SFleb_neg_neg _ _ _ _ B1 Bp). apply Z.leb_le. exact Hp.
Qed.

End PerturbationRounding.

Module PerturbationFacts.
Import Binary64 Rounding PerturbationRounding.
Local Open Scope float_scope.

(** A number that is at least zero and below one is a zero or a positive
    finite number below one. *)
Lemma unit_interval_cases (r : float) :
  (0 <=? r) = true -> (r <? 1) = true ->
  (exists s, Prim2SF r = S754_zero s)
  \/ exists m e, Prim2SF r = S754_finite false m e
                 /\ bounded prec emax m e = true
                 /\ (V (Zpos m) e < V 4503599627370496 (-52))%Z.
Proof.
  rewrite FloatAxioms.leb_spec, FloatAxioms.ltb_spec.
  pose proof (Prim2SF_valid r) as VR.
  change (Prim2SF 0) with (S754_zero false).
  change (Prim2SF 1) with (S754_finite false 4503599627370496 (-52)).
  destruct (Prim2SF r) as [s|s| |s m e]; intros H0 H1.
  - left. now exists s.
  - destruct s; discriminate.
  - discriminate.
  - destruct s; [discriminate H0|]. right. exists m, e.
    split; [reflexivity|]. split; [exact VR|].
    unfold SFltb in H1. cbn [SFcompare] in H1.
    rewrite (compare_V m 4503599627370496 e (-52) VR eq_refl) in H1.
    destruct (Z.compare_spec (V (Zpos m) e) (V 4503599627370496 (-52))); try discriminate H1.
    assumption.
Qed.

Lemma perturbation_range (random : float) :
  (0 <=? random) = true -> (random <? 1) = true ->
  (-0.01 <=? perturbation random) = true /\ (perturbation random <=? 0.01) = true.
Proof.
  intros H0 H1. unfold perturbation.
  rewrite !FloatAxioms.leb_spec.
  pose proof (Prim2SF_valid (random * 0.02 - 0.01)) as VS.
  pose proof (Prim2SF_valid (random * 0.02)) as VM.
  rewrite sub_spec in *. rewrite mul_spec in *.
  change (Prim2SF 0.02) with (S754_finite false m_01 (-58)) in *.
  change (Prim2SF 0.01) with (S754_finite false m_01 (-59)) in *.
  change (Prim2SF (-0.01)) with (S754_finite true m_01 (-59)) in *.
  unfold SF64sub, SF64mul in *.
  destruct (unit_interval_cases random H0 H1) as [(s & E)|(m & e & E & B & Hlt)];
    rewrite E in *.
  - destruct s; split; reflexivity.
  - destruct (SFmul_002 m e B Hlt VM) as [EM|(p & e2 & EM & Bp & Hp)]; rewrite EM in *.
    + split; reflexivity.
    + exact (SFsub_001 p e2 Bp Hp VS).
Qed.

End PerturbationFacts.

(** ** Quotients that are not positive *)

Module FloatSigns.
Import Binary64 Rounding RoundingBelow FloatSign.

(** A number that is at least zero is a zero, a positive finite number or
    [+Infinity]. *)
Lemma nonneg_cases (x : float) :
  (0 <=? x) = true ->
  (exists s, Prim2SF x = S754_zero s)
  \/ (exists m e, Prim2SF x = S754_finite false m e)
  \/ Prim2SF x = S754_infinity false.
Proof.
  rewrite FloatAxioms.leb_spec. change (Prim2SF 0) with (S754_zero false).
  destruct (Prim2SF x) as [s|s| |s m e]; intros H.
  - left. now exists s.
  - destruct s; [discriminate H|now right; right].
  - discriminate H.
  - destruct s; [discriminate H|]. right. left. now exists m, e.
Qed.

Lemma negative_cases (x : float) :
  (x <? 0) = true ->
  (exists m e, Prim2SF x = S754_finite true m e)
  \/ Prim2SF x = S754_infinity true.
Proof.
  rewrite FloatAxioms.ltb_spec. change (Prim2SF 0) with (S754_zero false).
  destruct (Prim2SF x) as [s|s| |s m e]; intros H.
  - discriminate H.
  - destruct s; [now right|discriminate H].
  - discriminate H.
  - destruct s; [|discriminate H]. left. now exists m, e.
Qed.

Lemma not_positive_finish (m e : Z) : (0 <= m)%Z -> not_positive (finish true m e).
Proof.
  intros Hm. destruct m as [|p|p]; cbn [finish]; [exact I| |lia].
  destruct (e <=? emax - prec)%Z; exact I.
Qed.

(** A number that is at least zero, divided by a negative number, is not
    positive: it is a zero, a negative number or NaN. *)
Lemma div_not_positive (x y : float) :
  (0 <=? x) = true -> (y <? 0) = true -> not_positive (Prim2SF (x / y)).
Proof.
  intros Hx Hy. rewrite div_spec. unfold SF64div.
  destruct (negative_cases y Hy) as [(my & ey & ->)| ->];
    destruct (nonneg_cases x Hx) as [(s & ->)|[(mx & ex & ->)| ->]];
    try exact I.
  destruct (SFdiv_sign false true mx my ex ey) as (m2 & e2 & Hm2 & ->).
  apply not_positive_finish. exact Hm2.
Qed.

Lemma div_nan (x y : float) :
  JS.isNaN y = true -> not_positive (Prim2SF (x / y)).
Proof.
  unfold JS.isNaN. rewrite FloatOrder.is_nan_spec. intros Hy.
  rewrite div_spec, Hy. unfold SF64div. destruct (Prim2SF x); exact I.
Qed.

(** No positive number is below a number that is not positive. *)
Lemma not_above (c x : float) :
  (0 <? c) = true -> not_positive (Prim2SF x) -> (c <? x) = false.
Proof.
  intros Hc Hx. rewrite FloatAxioms.ltb_spec.
  destruct (positive_cases c Hc) as [(m & e & -> & _)| ->];
    destruct (Prim2SF x) as [s|[]| |[] mx ex]; try destruct Hx; reflexivity.
Qed.

Lemma mul_12_nonneg (x : float) : (0 <=? x) = true -> (0 <=? x * 12) = true.
Proof.
  intros H. rewrite FloatAxioms.leb_spec, mul_spec.
  change (Prim2SF 0) with (S754_zero false).
  change (Prim2SF 12) with (S754_finite false m_12 (-49)).
  unfold SF64mul.
  destruct (nonneg_cases x H) as [(s & ->)|[(m & e & ->)| ->]]; try reflexivity.
  cbn [SFmul xorb].
  destruct (binary_round_aux_sign false (Zpos (m * m_12)) (e + -49) loc_Exact
              (Pos2Z.is_nonneg _)) as (m2 & e2 & Hm2 & ->).
  destruct m2 as [|p|p]; cbn [finish]; [reflexivity| |lia].
  destruct (e2 <=? emax - prec)%Z; reflexivity.
Qed.

End FloatSigns.


(** ** The scorer on every record *)

Section ScorerMore.

Import FloatOrder FloatSigns.

Variable cut : cutoffs.t.

Lemma ratios_not_positive (d : ApplicantData) :
  JS.isNaN (annual_income d) = true
  \/ ((annual_income d <? 0) = true
      /\ (0 <=? credit_amount d) = true /\ (0 <=? annuity d) = true) ->
  not_positive (Prim2SF (creditToIncome d))
  /\ not_positive (Prim2SF (debtToIncome d)).
Proof.
  unfold creditToIncome, debtToIncome. intros [H|(Hi & Hc & Ha)].
  - split; apply div_nan; exact H.
  - split; apply div_not_positive; try assumption.
    apply mul_12_nonneg. exact Ha.
Qed.

(** X1. An income that is not a number, or a negative income with a credit
    amount and an annuity that are not negative, exceeds none of the five
    ratio thresholds: the record is scored like one without any debt. *)
Theorem unusable_income_skips_ratio_rules (random : JS.number) (d : ApplicantData) :
  JS.isNaN (annual_income d) = true
  \/ ((annual_income d <? 0) = true
      /\ (0 <=? credit_amount d) = true /\ (0 <=? annuity d) = true) ->
  (creditToIncome d >? 3) = false /\ (creditToIncome d >? 2) = false
  /\ (creditToIncome d >? 1) = false
  /\ (debtToIncome d >? 0.5) = false /\ (debtToIncome d >? 0.3) = false
  /\ predictRisk cut random d = predictRisk cut random (without_debt d).
Proof.
  intros H. destruct (ratios_not_positive d H) as [Hc Hd].
  pose proof (not_above 3 _ eq_refl Hc) as C3.
  pose proof (not_above 2 _ eq_refl Hc) as C2.
  pose proof (not_above 1 _ eq_refl Hc) as C1.
  pose proof (not_above 0.5 _ eq_refl Hd) as D5.
  pose proof (not_above 0.3 _ eq_refl Hd) as D3.
  repeat (split; [assumption|]).
  unfold predictRisk, predictRiskWith, baseProbability.
  assert (riskScore d = riskScore (without_debt d)) as ->; [|reflexivity].
  unfold riskScore. rewrite C3, C2, C1, D5, D3.
  change (3 <? creditToIncome (without_debt d)) with false.
  change (2 <? creditToIncome (without_debt d)) with false.
  change (1 <? creditToIncome (without_debt d)) with false.
  change (0.5 <? debtToIncome (without_debt d)) with false.
  change (0.3 <? debtToIncome (without_debt d)) with false.
  reflexivity.
Qed.

Import ClampFacts.

(** X2. The raw score of every record lies between -0.04 and
    0.27000000000000007, both of which some record attains; the cap of 0.4
    is never reached, so the clamp only ever raises a negative score to 0. *)
Theorem raw_score_range (d : ApplicantData) :
  (-0.04 <=? riskScore d) = true
  /\ (riskScore d <=? 0.27000000000000007) = true
  /\ JS.Math_min 0.4 (riskScore d) = riskScore d
  /\ baseProbability d = JS.Math_max 0 (riskScore d)
  /\ riskScore low_risk_applicant = -0.04
  /\ riskScore highest_score_applicant = 0.27000000000000007.
Proof.
  assert (JS.Math_min 0.4 (riskScore d) = riskScore d) as E
    by (unfold riskScore; split_conditions; reflexivity).
  split; [unfold riskScore; split_conditions; reflexivity|].
  split; [unfold riskScore; split_conditions; reflexivity|].
  split; [exact E|]. split; [unfold baseProbability; rewrite E; reflexivity|].
  split; reflexivity.
Qed.

(** X3. Two records that differ only in labels the scorer does not name -
    a contract type other than "Revolving loans", an education other than
    "Academic degree", "Higher education" and "Lower secondary" - get the
    same prediction: such labels, misspelt ones among them, are scored like
    the default. *)
Theorem unlisted_labels_score_as_default (random : JS.number) (d1 d2 : ApplicantData) :
  annual_income d1 = annual_income d2 -> credit_amount d1 = credit_amount d2 ->
  annuity d1 = annuity d2 -> age d1 = age d2 ->
  employment_years d1 = employment_years d2 ->
  contract_type d1 <> "Revolving loans"%string ->
  contract_type d2 <> "Revolving loans"%string ->
  ~ In (education d1) ["Academic degree"; "Higher education"; "Lower secondary"]%string ->
  ~ In (education d2) ["Academic degree"; "Higher education"; "Lower secondary"]%string ->
  predictRisk cut random d1 = predictRisk cut random d2.
Proof.
  destruct d1 as [i1 c1 a1 g1 y1 s1 t1 e1], d2 as [i2 c2 a2 g2 y2 s2 t2 e2].
  cbn [annual_income credit_amount annuity age employment_years contract_type education].
  intros -> -> -> -> -> Ht1 Ht2 He1 He2.
  unfold predictRisk, predictRiskWith, baseProbability, riskScore,
    creditToIncome, debtToIncome.
  cbn [annual_income credit_amount annuity age employment_years contract_type education].
  apply String.eqb_neq in Ht1, Ht2. rewrite Ht1, Ht2.
  assert (forall e l, ~ In e [ "Academic degree"; "Higher education"; "Lower secondary"]%string ->
            In l [ "Academic degree"; "Higher education"; "Lower secondary"]%string ->
            (e =? l)%string = false) as Hno.
  { intros e l Hn Hl. apply String.eqb_neq. intros ->. exact (Hn Hl). }
  rewrite !(Hno e1) by (assumption || (cbn; tauto)).
  rewrite !(Hno e2) by (assumption || (cbn; tauto)).
  reflexivity.
Qed.

Import PerturbationFacts.

(** X4. [Math.random()] yields a number in [[0, 1)]: the perturbation then
    lies between -0.01 and 0.01, and the returned probability is a number
    between -0.01 and 0.41, for every record. *)
Theorem random_perturbation_range (random : JS.number) (d : ApplicantData) :
  (0 <=? random) = true -> (random <? 1) = true ->
  (-0.01 <=? perturbation random) = true
  /\ (perturbation random <=? 0.01) = true
  /\ (-0.01 <=? probability (predictRisk cut random d)) = true
  /\ (probability (predictRisk cut random d) <=? 0.41) = true
  /\ JS.isNaN (probability (predictRisk cut random d)) = false.
Proof.
  intros H0 H1. destruct (perturbation_range random H0 H1) as [Hl Hu].
  split; [exact Hl|]. split; [exact Hu|].
  unfold predictRisk. cbn [probability predictRiskWith].
  destruct (FloatRange.add_in_range _ _ (baseProbability_values d) Hl Hu)
    as [Hlow Hhigh].
  split; [exact Hlow|]. split; [exact Hhigh|].
  exact (proj1 (leb_not_nan _ _ Hhigh)).
Qed.

End ScorerMore.

Lemma unusable_income_skips_ratio_rules_witness :
  (annual_income negative_income_applicant <? 0) = true
  /\ (0 <=? credit_amount negative_income_applicant) = true
  /\ (0 <=? annuity negative_income_applicant) = true
  /\ predictRisk sample_cutoffs 0.5 negative_income_applicant
     = predictRisk sample_cutoffs 0.5 (without_debt negative_income_applicant).
Proof.
  split; [reflexivity|]. split; [reflexivity|]. split; [reflexivity|].
  destruct (unusable_income_skips_ratio_rules sample_cutoffs 0.5
              negative_income_applicant
              (or_intror (conj eq_refl (conj eq_refl eq_refl))))
    as (_ & _ & _ & _ & _ & H).
  exact H.
Defined.

Lemma unlisted_labels_score_as_default_witness :
  contract_type ratio_three_applicant <> "Revolving loans"%string
  /\ ~ In (education incomplete_higher_applicant)
          ["Academic degree"; "Higher education"; "Lower secondary"]%string
  /\ predictRisk sample_cutoffs 0.5 ratio_three_applicant
     = predictRisk sample_cutoffs 0.5 incomplete_higher_applicant.
Proof.
  assert (contract_type ratio_three_applicant <> "Revolving loans"%string) as T1
    by discriminate.
  assert (contract_type incomplete_higher_applicant <> "Revolving loans"%string)
    as T2 by discriminate.
  assert (~ In (education ratio_three_applicant)
               ["Academic degree"; "Higher education"; "Lower secondary"]%string)
    as E1 by (intros [H|[H|[H|[]]]]; discriminate H).
  assert (~ In (education incomplete_higher_applicant)
               ["Academic degree"; "Higher education"; "Lower secondary"]%string)
    as E2 by (intros [H|[H|[H|[]]]]; discriminate H).
  split; [exact T1|]. split; [exact E2|].
  exact (unlisted_labels_score_as_default sample_cutoffs 0.5
           ratio_three_applicant incomplete_higher_applicant
           eq_refl eq_refl eq_refl eq_refl eq_refl T1 T2 E1 E2).
Defined.

Lemma random_perturbation_range_witness :
  (0 <=? 0.5) = true /\ (0.5 <? 1) = true
  /\ (-0.01 <=? probability (predictRisk sample_cutoffs 0.5 median_applicant)) = true
  /\ (probability (predictRisk sample_cutoffs 0.5 median_applicant) <=? 0.41) = true.
Proof.
  split; [reflexivity|]. split; [reflexivity|].
  destruct (random_perturbation_range sample_cutoffs 0.5 median_applicant
              eq_refl eq_refl) as (_ & _ & Hlow & Hhigh & _).
  split; [exact Hlow|exact Hhigh].
Defined.


(** ** The handler on every request *)

Section HandlerMore.

Variable cut : cutoffs.t.
Variable random : JS.number.
Variable runtime_message : fault -> string.
Variable StringToNumber : string -> JS.number.
Variable ObjectToString : JSON -> string.

Local Abbreviation handle :=
  (handler cut random runtime_message StringToNumber ObjectToString).
Local Abbreviation run := (process cut random StringToNumber ObjectToString).

(** X5. The CORS headers are on every response: the preflight answer, a
    prediction and an error alike; all but the preflight answer also declare
    a JSON body. *)
Theorem cors_on_every_response (req : Request) :
  (forall h, In h corsHeaders -> In h (headers (handle req)))
  /\ (In ("Content-Type", "application/json")%string (headers (handle req))
      <-> (method req =? "OPTIONS")%string = false)
  /\ (body (handle req) = NoBody <-> (method req =? "OPTIONS")%string = true).
Proof.
  unfold handler. destruct (method req =? "OPTIONS")%string.
  - cbn [headers body]. split; [auto|]. split; [|tauto].
    split; [|discriminate]. cbn. intros [H|[H|[]]]; discriminate H.
  - destruct (run req) as [e|r]; cbn [headers body];
      (split; [intros h Hh; apply in_or_app; now left|]);
      (split; [split; [reflexivity|intros _; apply in_or_app; right; now left]|]);
      split; discriminate.
Qed.

(** The keys before the first absent one. *)
Lemma find_first_missing (members : list (string * JSON)) (f : string)
    (before after : list string) :
  (forall g, In g before -> has_key g members = true) ->
  has_key f members = false ->
  find (fun g => negb (has_key g members)) (before ++ f :: after)%list = Some f.
Proof.
  induction before as [|g rest IH]; intros Hb Hf; cbn [app find].
  - rewrite Hf. reflexivity.
  - rewrite (Hb g) by now left. cbn [negb]. apply IH; [|exact Hf].
    intros h Hh. apply Hb. now right.
Qed.

(** X6. Whatever else is absent, the error names the first required field, in
    the order of the list, that the data object lacks. *)
Theorem first_missing_field_reported (m : string) (body : JSON)
    (members : list (string * JSON)) (f : string) (before after : list string) :
  (m =? "OPTIONS")%string = false ->
  get_property body "data" = ret (Some (JObject members)) ->
  requiredFields = (before ++ f :: after)%list ->
  (forall g, In g before -> has_key g members = true) ->
  has_key f members = false ->
  handle {| method := m; json := Some body |}
  = failure ("Missing required field: " ++ f).
Proof.
  intros Hm Hdata Hsplit Hb Hf. rewrite handler_outcome by exact Hm.
  unfold process, validate. cbn [json bind ret]. rewrite Hdata.
  cbn [bind ret truthy negb]. rewrite check_required_object, Hsplit.
  rewrite (find_first_missing members f before after Hb Hf). reflexivity.
Qed.

(** X7. A data member that is an array passes the truthiness test and fails on
    the first required field; a truthy primitive makes the [in] operator
    throw, and the answer carries the runtime's message. *)
Theorem non_object_data (m : string) (body data : JSON) :
  (m =? "OPTIONS")%string = false ->
  get_property body "data" = ret (Some data) ->
  truthy (Some data) = true ->
  (forall members, data <> JObject members) ->
  handle {| method := m; json := Some body |}
  = match data with
    | JArray _ => failure "Missing required field: annual_income"
    | _ => failure (runtime_message InOperatorOnPrimitive)
    end.
Proof.
  intros Hm Hdata Ht Hobj. rewrite handler_outcome by exact Hm.
  unfold process, validate. cbn [json bind ret]. rewrite Hdata.
  cbn [bind ret]. rewrite Ht. cbn [negb].
  destruct data as [|b|x|s|items|members]; try reflexivity.
  exfalso. now apply (Hobj members).
Qed.

Lemma member_insert (key k : string) (v : JSON) (l1 l2 : list (string * JSON)) :
  key <> k ->
  member key (l1 ++ (k, v) :: l2)%list = member key (l1 ++ l2)%list.
Proof.
  intros Hne. induction l1 as [|[k1 v1] rest IH]; cbn [app member].
  - destruct (member key l2); [reflexivity|].
    apply String.eqb_neq in Hne. rewrite Hne. reflexivity.
  - rewrite IH. reflexivity.
Qed.

Lemma has_key_insert (key k : string) (v : JSON) (l1 l2 : list (string * JSON)) :
  key <> k ->
  has_key key (l1 ++ (k, v) :: l2)%list = has_key key (l1 ++ l2)%list.
Proof.
  intros Hne. unfold has_key. rewrite !map_app, !existsb_app. cbn [map existsb fst].
  apply String.eqb_neq in Hne. rewrite Hne. reflexivity.
Qed.

Lemma check_required_insert (k : string) (v : JSON) (l1 l2 : list (string * JSON))
    (fields : list string) :
  ~ In k fields ->
  check_required (JObject (l1 ++ (k, v) :: l2)%list) fields
  = check_required (JObject (l1 ++ l2)%list) fields.
Proof.
  intros Hk. rewrite !check_required_object.
  assert (find (fun g => negb (has_key g (l1 ++ (k, v) :: l2)%list)) fields
          = find (fun g => negb (has_key g (l1 ++ l2)%list)) fields) as ->;
    [|reflexivity].
  induction fields as [|g rest IH]; [reflexivity|]. cbn [find].
  rewrite has_key_insert by (intros ->; apply Hk; now left).
  rewrite IH by (intros H; apply Hk; now right). reflexivity.
Qed.

(** X8. A member of the data object whose key is not one of the eight required
    ones has no influence on the answer, wherever it stands and whatever
    its value. *)
Theorem unknown_members_ignored (m k : string) (v : JSON)
    (l1 l2 : list (string * JSON)) :
  ~ In k requiredFields ->
  handle {| method := m;
            json := Some (JObject [("data"%string, JObject (l1 ++ (k, v) :: l2)%list)]) |}
  = handle {| method := m;
              json := Some (JObject [("data"%string, JObject (l1 ++ l2)%list)]) |}.
Proof.
  intros Hk. unfold handler. cbn [method].
  destruct (m =? "OPTIONS")%string; [reflexivity|].
  unfold process, validate. cbn [json bind ret get_property member String.eqb Ascii.eqb Bool.eqb truthy negb].
  rewrite (check_required_insert k v l1 l2 requiredFields Hk).
  destruct (check_required (JObject (l1 ++ l2)%list) requiredFields) as [e|[]];
    cbn [bind ret]; [reflexivity|].
  unfold as_applicant, field.
  rewrite !(member_insert _ k v l1 l2)
    by (intros E; apply Hk; rewrite <- E; cbn; tauto).
  reflexivity.
Qed.

End HandlerMore.

Lemma first_missing_field_reported_witness :
  has_key "age" members_without_age = false
  /\ handler sample_cutoffs 0.5 no_runtime_message no_number no_string
       {| method := "POST";
          json := Some (JObject [("data"%string, JObject members_without_age)]) |}
     = failure "Missing required field: age".
Proof.
  split; [reflexivity|].
  apply (first_missing_field_reported sample_cutoffs 0.5 no_runtime_message
           no_number no_string "POST"
           (JObject [("data"%string, JObject members_without_age)])
           members_without_age "age"
           ["annual_income"; "credit_amount"; "annuity"]%string
           ["employment_years"; "gender"; "contract_type"; "education"]%string
           eq_refl eq_refl eq_refl).
  - intros g [<-|[<-|[<-|[]]]]; reflexivity.
  - reflexivity.
Defined.

Lemma non_object_data_witness :
  truthy (Some (JArray [])) = true
  /\ handler sample_cutoffs 0.5 no_runtime_message no_number no_string
       {| method := "POST"; json := Some (JObject [("data"%string, JArray [])]) |}
     = failure "Missing required field: annual_income".
Proof.
  split; [reflexivity|].
  apply (non_object_data sample_cutoffs 0.5 no_runtime_message no_number
           no_string "POST" (JObject [("data"%string, JArray [])]) (JArray [])
           eq_refl eq_refl eq_refl).
  intros members. discriminate.
Defined.

Lemma unknown_members_ignored_witness :
  ~ In "note"%string requiredFields
  /\ handler sample_cutoffs 0.5 no_runtime_message no_number no_string
       {| method := "POST";
          json := Some (JObject [("data"%string,
                                  JObject (("note"%string, JString "urgent")
                                           :: members_all_null))]) |}
     = handler sample_cutoffs 0.5 no_runtime_message no_number no_string
         {| method := "POST";
            json := Some (JObject [("data"%string, JObject members_all_null)]) |}.
Proof.
  assert (~ In "note"%string requiredFields) as H.
  { intros H. repeat (destruct H as [H|H]; [discriminate H|]). exact H. }
  split; [exact H|].
  exact (unknown_members_ignored sample_cutoffs 0.5 no_runtime_message
           no_number no_string "POST" "note" (JString "urgent") []
           members_all_null H).
Defined.


Section ResponseRange.

Import FloatOrder.

Variable cut : cutoffs.t.
Variable random : JS.number.
Variable runtime_message : fault -> string.
Variable StringToNumber : string -> JS.number.
Variable ObjectToString : JSON -> string.

Local Abbreviation handle :=
  (handler cut random runtime_message StringToNumber ObjectToString).
Local Abbreviation run := (process cut random StringToNumber ObjectToString).

Lemma probability_range (d : ApplicantData) :
  (0 <=? random) = true -> (random <? 1) = true ->
  (-0.01 <=? probability (predictRisk cut random d)) = true
  /\ (probability (predictRisk cut random d) <=? 0.41) = true.
Proof.
  intros H0 H1.
  destruct (PerturbationFacts.perturbation_range random H0 H1) as [Hl Hu].
  exact (FloatRange.add_in_range _ _ (ClampFacts.baseProbability_values d) Hl Hu).
Qed.

Lemma process_scores (req : Request) (result : Prediction) :
  run req = inr result -> exists d, result = predictRisk cut random d.
Proof.
  unfold process. destruct (json req) as [parsed|]; cbn [bind ret throw];
    [|discriminate].
  destruct (validate parsed) as [e|data]; cbn [bind ret]; [discriminate|].
  destruct (as_applicant StringToNumber ObjectToString data) as [e|d];
    cbn [bind ret]; [discriminate|].
  intros H. injection H as <-. eauto.
Qed.

(** X9. With [Math.random()] in [[0, 1)], every prediction the handler
    answers with has status 200, a probability that is a number between
    -0.01 and 0.41, and the bucket, one of A, B, C and D, that the cutoffs
    assign to that probability. *)
Theorem prediction_responses_in_range (req : Request) (result : Prediction) :
  (0 <=? random) = true -> (random <? 1) = true ->
  body (handle req) = PredictionBody result ->
  status (handle req) = 200%Z
  /\ (-0.01 <=? probability result) = true
  /\ (probability result <=? 0.41) = true
  /\ bucket result = assignBucket cut (probability result)
  /\ In (bucket result) ["A"; "B"; "C"; "D"]%string.
Proof.
  intros H0 H1. unfold handler.
  destruct (method req =? "OPTIONS")%string; [discriminate|].
  destruct (run req) as [e|r] eqn:E; cbn [body status]; [discriminate|].
  intros H. injection H as ->.
  destruct (process_scores req result E) as [d ->].
  destruct (probability_range d H0 H1) as [Hl Hu].
  split; [reflexivity|]. split; [exact Hl|]. split; [exact Hu|].
  split; [reflexivity|]. apply assignBucket_label.
Qed.

End ResponseRange.

Lemma prediction_responses_in_range_witness :
  (0 <=? 0.5) = true /\ (0.5 <? 1) = true
  /\ body (handler sample_cutoffs 0.5 no_runtime_message no_number no_string
             {| method := "POST";
                json := Some (JObject [("data"%string, payload median_applicant)]) |})
     = PredictionBody (predictRisk sample_cutoffs 0.5 median_applicant)
  /\ (-0.01 <=? probability (predictRisk sample_cutoffs 0.5 median_applicant)) = true
  /\ (probability (predictRisk sample_cutoffs 0.5 median_applicant) <=? 0.41) = true.
Proof.
  split; [reflexivity|]. split; [reflexivity|]. split; [reflexivity|].
  destruct (prediction_responses_in_range sample_cutoffs 0.5 no_runtime_message
              no_number no_string
              {| method := "POST";
                 json := Some (JObject [("data"%string, payload median_applicant)]) |}
              (predictRisk sample_cutoffs 0.5 median_applicant)
              eq_refl eq_refl eq_refl) as (_ & Hlow & Hhigh & _).
  split; [exact Hlow|exact Hhigh].
Defined.


(** ** The prediction page *)

Module PredictLemmas.
Import Predict.
Local Open Scope string_scope.

Lemma emptyFields_nil (formData : FormData) :
  emptyFields formData = [] <->
  forall key value, In (key, value) (entries formData) -> value <> "".
Proof.
  unfold emptyFields. split.
  - intros H key value Hin ->.
    assert (In (key, "") (filter (fun entry => snd entry =? "") (entries formData))) as Hf
      by (apply filter_In; split; [exact Hin|reflexivity]).
    rewrite H in Hf. destruct Hf.
  - intros H. destruct (filter _ _) as [|[k v] rest] eqn:E; [reflexivity|].
    assert (In (k, v) (filter (fun entry => snd entry =? "") (entries formData))) as Hf
      by (rewrite E; now left).
    apply filter_In in Hf. destruct Hf as [Hin Hv]. cbn [snd] in Hv.
    apply String.eqb_eq in Hv. subst v. now destruct (H k "" Hin).
Qed.

(** Whether a property is named by an array index depends on its name
    only. *)
Lemma index_key (entry : string * string) (key : string) :
  (fst entry =? key) = true -> is_index entry = match array_index key with Some _ => true | None => false end.
Proof. intros H. apply String.eqb_eq in H. unfold is_index. rewrite H. reflexivity. Qed.

Section Find.

Variable key : string.

Local Abbreviation named_key := (fun entry : string * string => fst entry =? key).

Lemma find_place (entry : string * string) (sorted : list (string * string)) :
  find named_key (place entry sorted)
  = if named_key entry then Some entry else find named_key sorted.
Proof.
  induction sorted as [|next rest IH]; cbn [place find]; [reflexivity|].
  destruct (index_of entry <=? index_of next)%N eqn:E; cbn [find]; [reflexivity|].
  rewrite IH. destruct (fst next =? key) eqn:En; [|reflexivity].
  destruct (fst entry =? key) eqn:Ee; [|reflexivity].
  apply String.eqb_eq in En, Ee. apply N.leb_gt in E.
  unfold index_of in E. rewrite En, Ee in E. lia.
Qed.

Lemma find_ascending (l : list (string * string)) :
  find named_key (ascending l) = find named_key l.
Proof.
  induction l as [|entry rest IH]; [reflexivity|].
  cbn [ascending fold_right find]. fold (ascending rest).
  rewrite find_place, IH. reflexivity.
Qed.

Lemma find_filter_all (q : string * string -> bool) (l : list (string * string)) :
  (forall entry, named_key entry = true -> q entry = true) ->
  find named_key (filter q l) = find named_key l.
Proof.
  intros H. induction l as [|entry rest IH]; [reflexivity|]. cbn [filter find].
  destruct (fst entry =? key) eqn:E.
  - rewrite (H entry E). cbn [find]. rewrite E. reflexivity.
  - destruct (q entry); cbn [find]; rewrite ?E; exact IH.
Qed.

Lemma find_filter_none (q : string * string -> bool) (l : list (string * string)) :
  (forall entry, named_key entry = true -> q entry = false) ->
  find named_key (filter q l) = None.
Proof.
  intros H. induction l as [|entry rest IH]; [reflexivity|]. cbn [filter].
  destruct (q entry) eqn:Eq; [|exact IH]. cbn [find].
  destruct (fst entry =? key) eqn:E; [|exact IH].
  rewrite (H entry E) in Eq. discriminate Eq.
Qed.

Lemma find_app (l1 l2 : list (string * string)) :
  find named_key (l1 ++ l2)%list
  = match find named_key l1 with
    | Some entry => Some entry
    | None => find named_key l2
    end.
Proof.
  induction l1 as [|entry rest IH]; [reflexivity|]. cbn [app find].
  destruct (fst entry =? key); [reflexivity|exact IH].
Qed.

End Find.

(** Reading a property: a declared field, or the first added property of
    that name. *)
Lemma lookup_read (key : string) (formData : FormData) :
  lookup key formData
  = if key =? "income" then Some (income formData)
    else if key =? "creditAmount" then Some (creditAmount formData)
    else if key =? "annuity" then Some (annuity formData)
    else if key =? "age" then Some (age formData)
    else if key =? "employmentYears" then Some (employmentYears formData)
    else if key =? "gender" then Some (gender formData)
    else if key =? "contractType" then Some (contractType formData)
    else if key =? "education" then Some (education formData)
    else option_map snd (find (fun entry => fst entry =? key) (others formData)).
Proof.
  unfold lookup, entries. rewrite find_app, find_ascending.
  destruct (array_index key) as [n|] eqn:Ek.
  - rewrite find_filter_all
      by (intros entry H; rewrite (index_key entry key H), Ek; reflexivity).
    repeat match goal with
    | |- context [if key =? ?k then _ else _] =>
        let E := fresh "E" in
        destruct (key =? k) eqn:E;
        [apply String.eqb_eq in E; subst key; discriminate Ek|]
    end.
    destruct (find _ (others formData)) as [entry|]; [reflexivity|].
    rewrite find_app. cbn [find fst].
    rewrite !(String.eqb_sym _ key), E, E0, E1, E2, E3, E4, E5, E6.
    rewrite find_filter_none; [reflexivity|].
    intros entry H. rewrite (index_key entry key H), Ek. reflexivity.
  - rewrite find_filter_none
      by (intros entry H; rewrite (index_key entry key H), Ek; reflexivity).
    rewrite find_app. cbn [find fst].
    rewrite !(String.eqb_sym _ key).
    repeat match goal with
    | |- context [if key =? ?k then _ else _] => destruct (key =? k); [reflexivity|]
    end.
    rewrite find_filter_all; [reflexivity|].
    intros entry H. rewrite (index_key entry key H), Ek. reflexivity.
Qed.

Lemma find_assign_same (field value : string) (l : list (string * string)) :
  find (fun entry => fst entry =? field) (assign field value l)
  = Some (match find (fun entry => fst entry =? field) l with
          | Some (k, _) => (k, value)
          | None => (field, value)
          end).
Proof.
  induction l as [|[k v] rest IH]; cbn [assign find fst].
  - rewrite String.eqb_refl. reflexivity.
  - destruct (k =? field) eqn:E; cbn [find fst]; rewrite E; [reflexivity|exact IH].
Qed.

Lemma find_assign_other (key field value : string) (l : list (string * string)) :
  key <> field ->
  find (fun entry => fst entry =? key) (assign field value l)
  = find (fun entry => fst entry =? key) l.
Proof.
  intros Hne. induction l as [|[k v] rest IH]; cbn [assign find fst].
  - apply String.eqb_neq in Hne. rewrite String.eqb_sym, Hne. reflexivity.
  - destruct (k =? field) eqn:E; cbn [find fst].
    + apply String.eqb_eq in E. subst k.
      assert ((field =? key) = false) as -> by (apply String.eqb_neq; congruence).
      reflexivity.
    + rewrite IH. reflexivity.
Qed.

Lemma same_keys_map (l1 l2 : list (string * string)) :
  same_keys l1 l2 -> map fst l1 = map fst l2.
Proof. induction 1 as [|a b l1 l2 H _ IH]; cbn [map]; congruence. Qed.

Lemma same_keys_refl (l : list (string * string)) : same_keys l l.
Proof. induction l; constructor; auto. Qed.

Lemma same_keys_assign (field value : string) (l : list (string * string)) :
  In field (map fst l) -> same_keys (assign field value l) l.
Proof.
  induction l as [|[k v] rest IH]; cbn [assign map fst In]; [tauto|].
  intros H. destruct (k =? field) eqn:E.
  - constructor; [reflexivity|apply same_keys_refl].
  - constructor; [reflexivity|]. apply IH.
    destruct H as [H|H]; [|exact H]. apply String.eqb_neq in E. contradiction.
Qed.

Lemma same_keys_filter (q : string * string -> bool) (l1 l2 : list (string * string)) :
  (forall a b, fst a = fst b -> q a = q b) ->
  same_keys l1 l2 -> same_keys (filter q l1) (filter q l2).
Proof.
  intros Hq. induction 1 as [|a b l1 l2 H _ IH]; cbn [filter]; [constructor|].
  rewrite (Hq a b H). destruct (q b); [constructor; assumption|exact IH].
Qed.

Lemma is_index_key (a b : string * string) : fst a = fst b -> is_index a = is_index b.
Proof. unfold is_index. intros ->. reflexivity. Qed.

Lemma index_of_key (a b : string * string) : fst a = fst b -> index_of a = index_of b.
Proof. unfold index_of. intros ->. reflexivity. Qed.

Lemma same_keys_place (a b : string * string) (l1 l2 : list (string * string)) :
  fst a = fst b -> same_keys l1 l2 -> same_keys (place a l1) (place b l2).
Proof.
  intros Hab. induction 1 as [|x y l1 l2 H Hl IH]; cbn [place].
  - constructor; [exact Hab|constructor].
  - rewrite (index_of_key a b Hab), (index_of_key x y H).
    destruct (index_of b <=? index_of y)%N.
    + constructor; [exact Hab|]. constructor; assumption.
    + constructor; assumption.
Qed.

Lemma same_keys_ascending (l1 l2 : list (string * string)) :
  same_keys l1 l2 -> same_keys (ascending l1) (ascending l2).
Proof.
  induction 1 as [|a b l1 l2 H _ IH]; cbn [ascending fold_right]; [constructor|].
  apply same_keys_place; assumption.
Qed.

Lemma In_place (e entry : string * string) (sorted : list (string * string)) :
  In e (place entry sorted) -> e = entry \/ In e sorted.
Proof.
  induction sorted as [|next rest IH]; cbn [place In].
  - intros [H|[]]; auto.
  - destruct (index_of entry <=? index_of next)%N; cbn [In].
    + intros [H|[H|H]]; auto.
    + intros [H|H]; auto. destruct (IH H); auto.
Qed.

Lemma In_ascending (e : string * string) (l : list (string * string)) :
  In e (ascending l) -> In e l.
Proof.
  induction l as [|entry rest IH]; cbn [ascending fold_right In]; [tauto|].
  intros H. destruct (In_place _ _ _ H) as [->|H']; auto.
Qed.

(** A name among the keys that is none of the eight declared fields names
    an added property. *)
Lemma added_key (field : string) (formData : FormData) :
  In field (map fst (entries formData)) ->
  In field ["income"; "creditAmount"; "annuity"; "age"; "employmentYears";
            "gender"; "contractType"; "education"]
  \/ In field (map fst (others formData)).
Proof.
  unfold entries. rewrite !map_app, !in_app_iff. intros [H|[H|H]].
  - right. apply in_map_iff in H. destruct H as (e & <- & H).
    apply In_ascending, filter_In in H. apply in_map. exact (proj1 H).
  - left. exact H.
  - right. apply in_map_iff in H. destruct H as (e & <- & H).
    apply filter_In in H. apply in_map. exact (proj1 H).
Qed.

Lemma keys_entries (formData formData' : FormData) :
  same_keys (others formData) (others formData') ->
  map fst (entries formData) = map fst (entries formData').
Proof.
  intros H. unfold entries. rewrite !map_app. f_equal; [|f_equal].
  - apply same_keys_map, same_keys_ascending, same_keys_filter;
      [exact is_index_key|exact H].
  - apply same_keys_map, same_keys_filter; [|exact H].
    intros a b Hab. rewrite (is_index_key a b Hab). reflexivity.
Qed.

Ltac field_cases field :=
  unfold handleInputChange;
  repeat match goal with
  | |- context [if field =? ?k then _ else _] =>
      let E := fresh "E" in
      destruct (field =? k) eqn:E;
      [apply String.eqb_eq in E; subst field|]
  end.

End PredictLemmas.

Section PageFacts.

Import Predict PredictLemmas.
Local Open Scope string_scope.

Variable parseFloat : string -> JS.number.
Variable parseInt : string -> JS.number.
Variable invoke : ApplicantData -> Invoked.

Local Abbreviation click := (handlePredict parseFloat parseInt invoke).
Local Abbreviation body := (requestData parseFloat parseInt).

(** X10. A click sends a request only when no property of the form state is
    empty; otherwise it shows the toast about missing information and
    changes nothing else. *)
Theorem request_only_when_complete (s : State) :
  ((exists key, In (key, "") (entries (formData s)))
   /\ click s = mkState (formData s) (loading s) (result s)
                  (toasts s ++ [missingInformation]) (requests s))
  \/ ((forall key value, In (key, value) (entries (formData s)) -> value <> "")
      /\ requests (click s) = (requests s ++ [body (formData s)])%list).
Proof.
  unfold handlePredict. destruct (emptyFields (formData s)) as [|[k v] rest] eqn:E.
  - right. split; [apply emptyFields_nil; exact E|].
    cbn [List.length Nat.ltb Nat.leb formData requests].
    destruct (attempt _ _ _ _); reflexivity.
  - left. split; [|reflexivity]. exists k.
    assert (In (k, v) (emptyFields (formData s))) as Hin by (rewrite E; now left).
    apply filter_In in Hin. destruct Hin as [Hin Hv]. cbn [snd] in Hv.
    apply String.eqb_eq in Hv. subst v. exact Hin.
Qed.

(** X11. With a complete form, the click ends with [loading] false and
    exactly one more toast; the result changes only when a truthy [data]
    arrives without an error, and a failed attempt keeps the result shown
    before. *)
Theorem prediction_attempt_outcome (s : State) :
  emptyFields (formData s) = [] ->
  loading (click s) = false
  /\ formData (click s) = formData s
  /\ ((exists data,
         invoke (body (formData s)) = Resolved data None
         /\ truthy (Some data) = true
         /\ result (click s)
            = Some {| probability := field data "probability";
                      riskBucket := field data "bucket" |}
         /\ toasts (click s) = (toasts s ++ [predictionComplete])%list)
      \/ (exists thrown,
            (forall data, invoke (body (formData s)) = Resolved data None ->
                          truthy (Some data) = false)
            /\ result (click s) = result s
            /\ toasts (click s) = (toasts s ++ [predictionFailed thrown])%list)).
Proof.
  intros E. unfold handlePredict, attempt. rewrite E.
  cbn [List.length Nat.ltb Nat.leb formData requests loading result toasts].
  destruct (invoke (body (formData s))) as [data [message|]|thrown] eqn:EI.
  - cbn. split; [reflexivity|]. split; [reflexivity|]. right. eexists.
    split; [discriminate|]. split; reflexivity.
  - destruct (truthy (Some data)) eqn:ET; cbn [negb].
    + cbn. split; [reflexivity|]. split; [reflexivity|]. left. exists data. auto.
    + cbn. split; [reflexivity|]. split; [reflexivity|]. right. eexists.
      split; [|split; reflexivity].
      intros data' H. injection H as <-. exact ET.
  - cbn. split; [reflexivity|]. split; [reflexivity|]. right. eexists.
    split; [discriminate|]. split; reflexivity.
Qed.

End PageFacts.

Lemma prediction_attempt_outcome_witness :
  Predict.emptyFields (Predict.formData Predict.filled_state) = []
  /\ Predict.loading
       (Predict.handlePredict Predict.parse_as_one Predict.parse_as_one
          Predict.answer_with_prediction Predict.filled_state) = false.
Proof.
  split; [reflexivity|].
  exact (proj1 (prediction_attempt_outcome Predict.parse_as_one
                  Predict.parse_as_one Predict.answer_with_prediction
                  Predict.filled_state eq_refl)).
Defined.


Section PageState.

Import Predict PredictLemmas.
Local Open Scope string_scope.

(** X12. Every bucket the scorer assigns has its own label and colour on the
    page: the fallbacks "Unknown" and "text-foreground" are never shown
    for one, and two buckets with the same label or colour are equal. *)
Theorem server_buckets_have_labels (cut : cutoffs.t) (p q : JS.number) :
  let b := assignBucket cut p in
  let c := assignBucket cut q in
  In (getRiskLabel b) ["Low Risk"; "Moderate Risk"; "High Risk"; "Very High Risk"]
  /\ In (getRiskColor b) ["text-risk-a"; "text-risk-b"; "text-risk-c"; "text-risk-d"]
  /\ (getRiskLabel b = getRiskLabel c -> b = c)
  /\ (getRiskColor b = getRiskColor c -> b = c).
Proof.
  intros b c.
  pose proof (assignBucket_label cut p) as Hb. pose proof (assignBucket_label cut q) as Hc.
  fold b in Hb. fold c in Hc. clearbody b c.
  cbn [In] in Hb, Hc.
  destruct Hb as [<-|[<-|[<-|[<-|[]]]]]; destruct Hc as [<-|[<-|[<-|[<-|[]]]]];
    cbn; repeat split; auto; discriminate.
Qed.

(** X13. [handleInputChange] is an update of one property: the property
    named reads back the new value, every other property reads as before,
    and a name the form state already holds leaves the keys as they
    are. *)
Theorem input_change_updates_one_field (field value : string) (prev : FormData) :
  lookup field (handleInputChange field value prev) = Some value
  /\ (forall key, key <> field ->
        lookup key (handleInputChange field value prev) = lookup key prev)
  /\ (In field (map fst (entries prev)) ->
      map fst (entries (handleInputChange field value prev))
      = map fst (entries prev)).
Proof.
  split; [|split].
  - rewrite lookup_read. field_cases field; try reflexivity.
    cbn [others]. rewrite find_assign_same.
    destruct (find _ (others prev)) as [[k v]|]; reflexivity.
  - intros key Hne. rewrite !lookup_read.
    field_cases field;
      cbn [income creditAmount annuity age employmentYears gender
           contractType education others];
      try (repeat match goal with
           | |- context [if key =? ?k then _ else _] =>
               let F := fresh "F" in
               destruct (key =? k) eqn:F;
               [apply String.eqb_eq in F; congruence || reflexivity|]
           end; reflexivity).
    rewrite find_assign_other by exact Hne. reflexivity.
  - intros Hin. field_cases field;
      try (apply keys_entries; apply same_keys_refl).
    apply keys_entries. cbn [others]. apply same_keys_assign.
    destruct (added_key _ _ Hin) as [H|H]; [|exact H].
    cbn [In] in H.
    repeat match goal with
    | H : _ = field \/ _ |- _ => destruct H as [H|H];
        [subst field; rewrite ?String.eqb_refl in *; discriminate|]
    end.
    destruct H.
Qed.

End PageState.

Section Wire.

Local Open Scope string_scope.

Variable cut : cutoffs.t.
Variable random : JS.number.
Variable runtime_message : fault -> string.
Variable StringToNumber : string -> JS.number.
Variable ObjectToString : JSON -> string.
Variable parseFloat : string -> JS.number.
Variable parseInt : string -> JS.number.

Local Abbreviation handle :=
  (handler cut random runtime_message StringToNumber ObjectToString).

(** X14. The handler never rejects a body the page sends: it holds a data
    object with the eight required keys, whatever the form holds, and is
    answered with a prediction when every number arrives as a number or as
    [null]; when numbers arrive unchanged, the record scored is the one the
    page built. *)
Theorem page_request_passes_validation (serialise : JS.number -> JSON)
    (m : string) (formData : Predict.FormData) :
  (m =? "OPTIONS") = false ->
  (forall x, serialise x = JNull \/ exists y, serialise x = JNumber y) ->
  let d := Predict.requestData parseFloat parseInt formData in
  (exists data,
     validate (wire serialise d) = ret data
     /\ forall key, In key requiredFields -> in_operator key data = ret true)
  /\ (exists scored,
        handle {| method := m; json := Some (wire serialise d) |}
        = success (predictRisk cut random scored))
  /\ handle {| method := m; json := Some (wire JNumber d) |}
     = success (predictRisk cut random d).
Proof.
  intros Hm Hser d. split; [|split].
  - eexists. split; [reflexivity|].
    intros key Hkey. cbn in Hkey.
    repeat (destruct Hkey as [<-|Hkey]; [reflexivity|]). destruct Hkey.
  - unfold handler. cbn [method]. rewrite Hm.
    unfold process. cbn [json bind ret].
    assert (validate (wire serialise d)
            = ret (JObject
                     [ ("annual_income", serialise (annual_income d));
                       ("credit_amount", serialise (credit_amount d));
                       ("annuity", serialise (annuity d));
                       ("age", serialise (age d));
                       ("employment_years", serialise (employment_years d));
                       ("gender", JString (gender d));
                       ("contract_type", JString (contract_type d));
                       ("education", JString (education d)) ])) as ->
      by reflexivity.
    cbn [bind ret]. unfold as_applicant, field.
    cbn [member String.eqb Ascii.eqb Bool.eqb].
    destruct (Hser (credit_amount d)) as [->|[? ->]];
      destruct (Hser (annual_income d)) as [->|[? ->]];
      destruct (Hser (annuity d)) as [->|[? ->]];
      destruct (Hser (age d)) as [->|[? ->]];
      destruct (Hser (employment_years d)) as [->|[? ->]];
      cbn [ToNumber bind ret]; eexists; reflexivity.
  - change (wire JNumber d) with (JObject [("data", payload d)]).
    apply handler_payload. exact Hm.
Qed.

End Wire.

Lemma page_request_passes_validation_witness :
  ("POST" =? "OPTIONS")%string = false
  /\ handler sample_cutoffs 0.5 no_runtime_message no_number no_string
       {| method := "POST";
          json := Some (wire JNumber
                          (Predict.requestData Predict.parse_as_one
                             Predict.parse_as_one Predict.filled_form)) |}
     = success (predictRisk sample_cutoffs 0.5
                  (Predict.requestData Predict.parse_as_one
                     Predict.parse_as_one Predict.filled_form)).
Proof.
  split; [reflexivity|].
  exact (proj2 (proj2 (page_request_passes_validation sample_cutoffs 0.5
                         no_runtime_message no_number no_string
                         Predict.parse_as_one Predict.parse_as_one JNumber
                         "POST" Predict.filled_form eq_refl
                         (fun x => or_intror (ex_intro _ x eq_refl))))).
Defined.




(** ** The backend of the guide *)

Module DictLemmas.
Import Backend.
Local Open Scope string_scope.

Lemma get_setitem_same {A} (d : dict A) (key : string) (value : A) :
  get (setitem d key value) key = Some value.
Proof.
  induction d as [|[k v] rest IH]; cbn [setitem get].
  - rewrite String.eqb_refl. reflexivity.
  - destruct (k =? key) eqn:E; cbn [get]; rewrite E; [reflexivity|exact IH].
Qed.

Lemma get_setitem_other {A} (d : dict A) (key other : string) (value : A) :
  other <> key -> get (setitem d key value) other = get d other.
Proof.
  intros Hne. induction d as [|[k v] rest IH]; cbn [setitem get].
  - assert ((key =? other) = false) as -> by (apply String.eqb_neq; congruence).
    reflexivity.
  - destruct (k =? key) eqn:E; cbn [get].
    + apply String.eqb_eq in E. subst k.
      assert ((key =? other) = false) as -> by (apply String.eqb_neq; congruence).
      reflexivity.
    + rewrite IH. reflexivity.
Qed.

Lemma get_setitem {A} (d : dict A) (key other : string) (value : A) :
  get (setitem d key value) other
  = if other =? key then Some value else get d other.
Proof.
  destruct (other =? key) eqn:E.
  - apply String.eqb_eq in E. subst other. apply get_setitem_same.
  - apply String.eqb_neq in E. apply get_setitem_other. exact E.
Qed.

End DictLemmas.

Section BackendScore.

Import Backend DictLemmas.
Local Open Scope string_scope.

Variable feature_columns : list string.
Variable cutoffs : dict float.
Variable feature_medians : dict number.
Variable label_encoders : dict (string -> option Z).
Variable model : list number -> exception + float.
Variable calibrator : float -> exception + float.
Variable str : exception -> string.

Local Abbreviation median := (median feature_medians).

Lemma get_fold_medians (columns : list string) (start : dict number) (col : string) :
  get (fold_left (fun features c => setitem features c (median c)) columns start) col
  = if existsb (String.eqb col) columns then Some (median col) else get start col.
Proof.
  revert start. induction columns as [|c rest IH]; intros start; cbn [fold_left existsb].
  - reflexivity.
  - rewrite IH, get_setitem. destruct (col =? c) eqn:E; cbn [orb].
    + apply String.eqb_eq in E. subst c. destruct (existsb _ rest); reflexivity.
    + reflexivity.
Qed.

Lemma get_medians_of (columns : list string) (col : string) :
  In col columns -> get (medians_of feature_medians columns) col = Some (median col).
Proof.
  intros Hin. unfold medians_of. rewrite get_fold_medians.
  assert (existsb (String.eqb col) columns = true) as ->; [|reflexivity].
  apply existsb_exists. exists col. split; [exact Hin|apply String.eqb_refl].
Qed.

Lemma get_encode (col label other : string) (d : dict number) :
  get (encode feature_medians label_encoders col label d) other
  = if other =? col
    then match get d col with
         | Some value =>
             Some match get label_encoders col with
                  | Some _ => encoded feature_medians label_encoders col label
                  | None => value
                  end
         | None => None
         end
    else get d other.
Proof.
  unfold encode, encoded, contains.
  destruct (other =? col) eqn:E.
  - apply String.eqb_eq in E. subst other.
    destruct (get label_encoders col) as [transform|]; cbn [andb].
    + destruct (get d col) as [v|] eqn:Ed; [|exact Ed].
      destruct (transform label); apply get_setitem_same.
    + destruct (get d col); reflexivity.
  - apply String.eqb_neq in E.
    destruct (get label_encoders col) as [transform|]; cbn [andb]; [|reflexivity].
    destruct (get d col) as [v|]; [|reflexivity].
    destruct (transform label); apply get_setitem_other; exact E.
Qed.

Local Abbreviation features := (features feature_columns feature_medians label_encoders).
Local Abbreviation column_value := (column_value feature_medians label_encoders).

(** The dictionary holds, for every feature column, the value of the
    column. *)
Lemma get_features (data : ApplicantData) (col : string) :
  In col feature_columns ->
  get (features data) col = Some (column_value data col).
Proof.
  intros Hin. unfold Backend.features, Backend.column_value.
  rewrite !get_encode, !get_setitem, (get_medians_of _ _ Hin).
  repeat match goal with
  | |- context [if col =? ?k then _ else _] =>
      let E := fresh "E" in
      destruct (col =? k) eqn:E;
      [apply String.eqb_eq in E; subst col|]
  end;
    cbn [String.eqb Ascii.eqb Bool.eqb];
    rewrite ?(get_medians_of _ _ Hin);
    try (f_equal; f_equal; lia);
    unfold encoded;
    try (destruct (get label_encoders _); reflexivity);
    reflexivity.
Qed.

Lemma row_map (d : dict number) (f : string -> number) (columns : list string) :
  (forall col, In col columns -> get d col = Some (f col)) ->
  row d columns = inr (map f columns).
Proof.
  induction columns as [|col rest IH]; intros H; cbn [row map]; [reflexivity|].
  rewrite (H col) by now left. rewrite IH; [reflexivity|].
  intros c Hc. apply H. now right.
Qed.

Lemma row_features (data : ApplicantData) :
  row (features data) feature_columns
  = inr (map (column_value data) feature_columns).
Proof. apply row_map. intros col Hin. apply get_features. exact Hin. Qed.

(** X15. Reading the feature row never raises a [KeyError]: the row has one
    number for every feature column, in the order of the columns, and the
    number is the mapped input, the encoded label, or the median of the
    column. *)
Theorem feature_row_total (data : ApplicantData) :
  row (features data) feature_columns
  = inr (map (column_value data) feature_columns)
  /\ (forall X, row (features data) feature_columns = inr X ->
        List.length X = List.length feature_columns).
Proof.
  pose proof (row_features data) as E.
  split; [exact E|]. intros X HX. rewrite E in HX. injection HX as <-.
  apply length_map.
Qed.

Local Abbreviation score :=
  (score feature_columns cutoffs feature_medians label_encoders model calibrator str).

(** X16. With the three cutoffs in the metadata, [score] fails only where
    the model or the calibrator raises: otherwise it returns the calibrated
    probability with the bucket the edge function assigns to the same
    probability and cutoffs. *)
Theorem score_returns_edge_bucket (data : ApplicantData) (a b c : float) :
  get cutoffs "A" = Some a -> get cutoffs "B" = Some b ->
  get cutoffs "C" = Some c ->
  let X := map (column_value data) feature_columns in
  (forall raw_prob calibrated_prob,
     model X = inr raw_prob -> calibrator raw_prob = inr calibrated_prob ->
     score data
     = Returned calibrated_prob
         (assignBucket (cutoffs.mk a b c) calibrated_prob))
  /\ (forall e, model X = inl e ->
        score data = HTTPException 500 ("Prediction error: " ++ str e))
  /\ (forall raw_prob e,
        model X = inr raw_prob -> calibrator raw_prob = inl e ->
        score data = HTTPException 500 ("Prediction error: " ++ str e)).
Proof.
  intros HA HB HC X. unfold Backend.score, predict. rewrite row_features. fold X.
  repeat split.
  - intros raw p Hm Hc. rewrite Hm, Hc.
    unfold bucket_of, cutoff, assignBucket. rewrite HA, HB, HC.
    cbn [cutoffs.A cutoffs.B cutoffs.C].
    destruct (p <=? a)%float; [reflexivity|].
    destruct (p <=? b)%float; [reflexivity|].
    destruct (p <=? c)%float; reflexivity.
  - intros e Hm. rewrite Hm. reflexivity.
  - intros raw e Hm Hc. rewrite Hm, Hc. reflexivity.
Qed.

End BackendScore.

Lemma score_returns_edge_bucket_witness :
  Backend.get Backend.guide_cutoffs "A" = Some 0.06
  /\ Backend.get Backend.guide_cutoffs "B" = Some 0.12
  /\ Backend.get Backend.guide_cutoffs "C" = Some 0.2
  /\ Backend.score Backend.guide_columns Backend.guide_cutoffs [] []
       Backend.fixed_model Backend.identity_calibrator Backend.no_description
       Backend.guide_applicant
     = Backend.Returned 0.1 "B".
Proof.
  split; [reflexivity|]. split; [reflexivity|]. split; [reflexivity|].
  exact (proj1 (score_returns_edge_bucket Backend.guide_columns
                  Backend.guide_cutoffs [] [] Backend.fixed_model
                  Backend.identity_calibrator Backend.no_description
                  Backend.guide_applicant 0.06 0.12 0.2 eq_refl eq_refl eq_refl)
           0.1 0.1 eq_refl eq_refl).
Defined.
